(** * Re-Peng-Blog-Service: the authentication service

    A shallow embedding of [src/modules/auth/auth.service.ts] (class
    [AuthService]) together with models of the collaborators that are
    injected into it:

    - [ConfigService]: the configuration values the service reads;
    - [JwtService] (package [@nestjs/jwt], on top of [jsonwebtoken]):
      module [Jwt], with signatures treated symbolically;
    - [RedisService] ([@/shared/redis/redis.service]): an interface record
      and two stores behind it, an in-memory store with per-key expiry and
      an unreachable one.

    Asynchronous methods are functions in the monad [Eff]: they read the
    clock ([Date.now()]), may change the cache store and the console, and
    either return a value or throw.

    Left out: the pass-through reads to [UserService] ([validateUser],
    [validateUserByIdAndName], [findUserById]) and the rendering of the
    CAPTCHA image ([rn], [rc], [generateCaptcha]). User ids are integers. *)

From Stdlib Require Import ZArith String Ascii List Bool Lia.
From Stdlib Require Import DecimalString DecimalZ.
From stdpp Require Import base gmap strings.

Import ListNotations.
Local Open Scope Z_scope.
Local Open Scope string_scope.

(** ** JavaScript values used by the service *)

(** [`${n}`] for an integer [n]: JavaScript prints an integer of magnitude
    below 10^21 in plain decimal, with a leading minus sign when negative. *)
Definition numberToString (n : Z) : string :=
  NilEmpty.string_of_int (Z.to_int n).

(** The pieces of a template literal. *)
Inductive TemplatePart :=
| Lit (s : string)
| NumberHole (n : Z)
| StringHole (s : string).

Definition renderPart (p : TemplatePart) : string :=
  match p with
  | Lit s => s
  | NumberHole n => numberToString n
  | StringHole s => s
  end.

Fixpoint template (ps : list TemplatePart) : string :=
  match ps with
  | [] => ""
  | p :: ps' => renderPart p ++ template ps'
  end.

(** [String.prototype.toLocaleLowerCase], on the ASCII range: the letters
    [A]..[Z] go to [a]..[z], every other byte is kept. *)
Definition lowerChar (c : ascii) : ascii :=
  let n := nat_of_ascii c in
  if ((65 <=? n)%nat && (n <=? 90)%nat)%bool then ascii_of_nat (n + 32) else c.

Fixpoint toLocaleLowerCase (s : string) : string :=
  match s with
  | EmptyString => EmptyString
  | String c s' => String (lowerChar c) (toLocaleLowerCase s')
  end.

(** Truthiness of a possibly undefined string: [undefined] and [""] are
    falsy. *)
Definition truthyString (s : option string) : bool :=
  match s with
  | Some s' => negb (String.eqb s' "")
  | None => false
  end.

(** Truthiness of a possibly undefined number: [undefined] and [0] are
    falsy. *)
Definition truthyNumber (n : option Z) : bool :=
  match n with
  | Some n' => negb (Z.eqb n' 0)
  | None => false
  end.

(** [a || b] on possibly undefined strings. *)
Definition orElse (a b : option string) : option string :=
  if truthyString a then a else b.

(** ** Errors *)

(** The response codes of [ApiResponseCodeEnum] that the service uses. *)
Inductive ApiResponseCodeEnum :=
| UNAUTHORIZED_ACCESS_TOKEN
| UNAUTHORIZED_REFRESH_TOKEN
| UNAUTHORIZED_NOTFOUND_SESSION
| UNAUTHORIZED_CAPTCHA_EXPIRE
| UNAUTHORIZED_CAPTCHA_ERROR
| INTERNALSERVERERROR_REDIS.

(** What can be thrown: the errors of [jsonwebtoken], an error of the cache
    client, and the two HTTP exceptions the service builds. The HTTP
    exceptions carry the response body [{code, e}] ([e] is the error that
    was caught, when there is one); the human-readable [msg] is left out. *)
#[warnings="-register-all"]
Inductive Thrown :=
| Error (message : string)
| JsonWebTokenError (message : string)
| TokenExpiredError (expiredAt : Z)
| CacheError (message : string)
| UnauthorizedException (code : ApiResponseCodeEnum) (e : option Thrown)
| InternalServerErrorException (code : ApiResponseCodeEnum) (e : Thrown).

(** ** The effect monad *)

(** The world a method runs in: the clock in milliseconds since the epoch
    ([Date.now()]), the state of the cache store, and what was written to
    the console. No method advances the clock itself. *)
Record World (S : Type) := mkWorld {
  clock : Z;
  redisState : S;
  console : list string
}.
Arguments mkWorld {S} _ _ _.
Arguments clock {S} _.
Arguments redisState {S} _.
Arguments console {S} _.

(** A computation returns or throws, and leaves a world behind in both
    cases. *)
Definition Eff (S A : Type) : Type := World S -> (Thrown + A) * World S.

Definition ret {S A} (a : A) : Eff S A := fun w => (inr a, w).

Definition throw {S A} (e : Thrown) : Eff S A := fun w => (inl e, w).

Definition bind {S A B} (m : Eff S A) (k : A -> Eff S B) : Eff S B :=
  fun w =>
    match m w with
    | (inr a, w') => k a w'
    | (inl e, w') => (inl e, w')
    end.

(** [try { m } catch (e) { h e }] *)
Definition tryCatch {S A} (m : Eff S A) (h : Thrown -> Eff S A) : Eff S A :=
  fun w =>
    match m w with
    | (inr a, w') => (inr a, w')
    | (inl e, w') => h e w'
    end.

(** [Date.now()] *)
Definition dateNow {S} : Eff S Z := fun w => (inr (clock w), w).

(** [console.log(line)] *)
Definition consoleLog {S} (line : string) : Eff S unit :=
  fun w => (inr tt, mkWorld (clock w) (redisState w) (console w ++ [line])).

(** Lifting a pure outcome. *)
Definition liftResult {S A} (r : Thrown + A) : Eff S A := fun w => (r, w).

Declare Scope eff_scope.
Delimit Scope eff_scope with eff.
Notation "'await' x <- m 'in' k" := (bind m (fun x => k))
  (at level 10, x name, m at level 100, k at level 200) : eff_scope.

(** ** Configuration *)

(** The values [configService.get] returns for the keys the service reads,
    with the types the calls give them: the secrets are strings, the
    lifetimes are numbers of seconds. *)
Record ConfigService := mkConfig {
  JWT_ACCESS_TOKEN_SECRET : string;
  JWT_REFRESH_TOKEN_SECRET : string;
  JWT_ACCESS_TOKEN_EXPIRES_IN : Z;
  JWT_REFRESH_TOKEN_EXPIRES_IN : Z
}.

(** ** The JWT service

    A model of [JwtService] from [@nestjs/jwt], which delegates to
    [jsonwebtoken]. A token is the compact serialisation of a header, a
    payload and an HMAC signature; here it is kept as a term, and the
    signature is symbolic: it records the secret it was made with and the
    payload it was made over, and verifies under exactly that secret and
    that payload. *)
Module Jwt.

(** The object given to [sign]: [{sub, userName}] or [{sub}]. *)
Record Claims := mkClaims {
  claim_sub : Z;
  claim_userName : option string
}.

(** The payload of a token: the claims given, [iat], and [exp] when a
    lifetime was set. *)
Record JwtPayload := mkPayload {
  sub : Z;
  userName : option string;
  iat : Z;
  exp : option Z
}.

Inductive Signature :=
| HS256 (secret : string) (signed : JwtPayload).

(** A token string: a well-formed JWS, or anything else. *)
Inductive Token :=
| Jws (payload : JwtPayload) (signature : Signature)
| Malformed (raw : string).

#[global] Instance JwtPayload_eq_dec : EqDecision JwtPayload.
Proof. solve_decision. Defined.

#[global] Instance Signature_eq_dec : EqDecision Signature.
Proof. solve_decision. Defined.

#[global] Instance Token_eq_dec : EqDecision Token.
Proof. solve_decision. Defined.

(** The options the module was registered with. *)
Record JwtModuleOptions := mkModuleOptions {
  module_secret : option string;
  module_expiresIn : option Z
}.

(** The options of one [signAsync] call. *)
Record JwtSignOptions := mkSignOptions {
  sign_secret : option string;
  sign_expiresIn : option Z
}.

(** The options of one [verifyAsync] call. *)
Record JwtVerifyOptions := mkVerifyOptions {
  verify_secret : option string
}.

Record JwtService := mkJwtService {
  options : JwtModuleOptions
}.

(** [Math.floor(Date.now() / 1000)] *)
Definition clockTimestamp (now : Z) : Z := now / 1000.

(** The payload [sign] builds at time [now]: the claims, [iat] set to the
    current second, and [exp] set to [iat] plus the lifetime when one is
    given. *)
Definition stamp (now : Z) (payload : Claims) (expiresIn : option Z)
    : JwtPayload :=
  let timestamp := clockTimestamp now in
  mkPayload (claim_sub payload) (claim_userName payload) timestamp
    (match expiresIn with
     | Some span => Some (timestamp + span)
     | None => None
     end).

(** [jwt.sign(payload, secret, {expiresIn})] at time [now]. *)
Definition sign (now : Z) (payload : Claims) (secret : option string)
    (expiresIn : option Z) : Thrown + Token :=
  match secret with
  | Some key =>
      if truthyString secret then
        let p := stamp now payload expiresIn in
        inr (Jws p (HS256 key p))
      else inl (Error "secretOrPrivateKey must have a value")
  | None => inl (Error "secretOrPrivateKey must have a value")
  end.

(** [jwt.verify(token, secret)] at time [now]: the token must be
    well-formed, a secret must be given, the signature must be valid, and
    the token must not have expired ([clockTimestamp >= exp] is
    expired). *)
Definition verify (now : Z) (token : Token) (secret : option string)
    : Thrown + JwtPayload :=
  match token with
  | Malformed _ => inl (JsonWebTokenError "jwt malformed")
  | Jws p sig =>
      match secret with
      | Some key =>
          if truthyString secret then
            if bool_decide (sig = HS256 key p) then
              match exp p with
              | Some e =>
                  if (clockTimestamp now >=? e)%Z
                  then inl (TokenExpiredError (e * 1000))
                  else inr p
              | None => inr p
              end
            else inl (JsonWebTokenError "invalid signature")
          else inl (JsonWebTokenError "secret or public key must be provided")
      | None => inl (JsonWebTokenError "secret or public key must be provided")
      end
  end.

(** [jwtService.signAsync(payload, options?)]: the secret of the call
    when it is truthy, else the module's; the lifetime of the call when
    options are given, else the module's. *)
Definition signAsync {S} (jwtService : JwtService) (payload : Claims)
    (opts : option JwtSignOptions) : Eff S Token :=
  (await now <- dateNow in
   let secret :=
     orElse (match opts with Some o => sign_secret o | None => None end)
            (module_secret (options jwtService)) in
   let expiresIn :=
     match opts with
     | Some o => sign_expiresIn o
     | None => module_expiresIn (options jwtService)
     end in
   liftResult (sign now payload secret expiresIn))%eff.

(** [jwtService.verifyAsync(token, options)] *)
Definition verifyAsync {S} (jwtService : JwtService) (token : Token)
    (opts : JwtVerifyOptions) : Eff S JwtPayload :=
  (await now <- dateNow in
   let secret := orElse (verify_secret opts)
                        (module_secret (options jwtService)) in
   liftResult (verify now token secret))%eff.

(** Modelled from the spec: the registration of the JWT module (the
    module file of the auth module is not among the sources). Section
    4.1: an access token is signed with the configured access-token
    secret, with the default expiry from configuration. *)
Definition register (configService : ConfigService) : JwtService :=
  mkJwtService
    (mkModuleOptions (Some (JWT_ACCESS_TOKEN_SECRET configService))
                     (Some (JWT_ACCESS_TOKEN_EXPIRES_IN configService))).

End Jwt.

(** ** The cache store *)

(** The methods of [RedisService] that the auth service calls. The class
    itself is not among the sources; a method is any computation over a
    store state [S]. The values the service caches are tokens, the time to
    live is in seconds, and [clearCatch] is the name the service calls the
    delete by. *)
Record RedisService (S : Type) := mkRedisService {
  setCache : string -> Jwt.Token -> Z -> Eff S unit;
  getCache : string -> Eff S (option Jwt.Token);
  getTTL : string -> Eff S Z;
  clearCatch : string -> Eff S Z
}.
Arguments mkRedisService {S} _ _ _ _.
Arguments setCache {S} _ _ _ _.
Arguments getCache {S} _ _.
Arguments getTTL {S} _ _.
Arguments clearCatch {S} _ _.

Module MemoryStore.

(** A cached value and the instant (milliseconds) it expires at. *)
Record CacheEntry := mkEntry {
  value : Jwt.Token;
  expiresAt : Z
}.

(** An entry is served strictly before its expiry. *)
Definition live (now : Z) (e : CacheEntry) : bool := (now <? expiresAt e)%Z.

Definition withStore {A} (f : Z -> gmap string CacheEntry ->
                               A * gmap string CacheEntry)
    : Eff (gmap string CacheEntry) A :=
  fun w =>
    let '(a, m) := f (clock w) (redisState w) in
    (inr a, mkWorld (clock w) m (console w)).

(** Modelled from the spec: [setCache(key, value, ttlSeconds)] of the
    missing [RedisService] (sections 2, 4.2 and 6): writes the value
    under the key with the given time to live, over any prior value. *)
Definition setCache (key : string) (v : Jwt.Token) (ttlSeconds : Z)
    : Eff (gmap string CacheEntry) unit :=
  withStore (fun now m =>
    (tt, <[key := mkEntry v (now + ttlSeconds * 1000)]> m)).

(** Modelled from the spec: [getCache(key) -> value|absent] of the
    missing [RedisService]: the current value, if any. *)
Definition getCache (key : string)
    : Eff (gmap string CacheEntry) (option Jwt.Token) :=
  withStore (fun now m =>
    (match m !! key with
     | Some e => if live now e then Some (value e) else None
     | None => None
     end, m)).

(** Modelled from the spec: [getTTL(key) -> seconds|absent] of the
    missing [RedisService]: the seconds remaining, [-1] when the key is
    absent. *)
Definition getTTL (key : string) : Eff (gmap string CacheEntry) Z :=
  withStore (fun now m =>
    (match m !! key with
     | Some e => if live now e then (expiresAt e - now) / 1000 else -1
     | None => -1
     end, m)).

(** Modelled from the spec: [clearCache(key) -> deletedCount|ack] of the
    missing [RedisService]: deletes the entry and returns how many
    entries it deleted. *)
Definition clearCatch (key : string) : Eff (gmap string CacheEntry) Z :=
  withStore (fun now m =>
    (match m !! key with
     | Some e => if live now e then 1 else 0
     | None => 0
     end, delete key m)).

Definition service : RedisService (gmap string CacheEntry) :=
  mkRedisService setCache getCache getTTL clearCatch.

End MemoryStore.

Module UnreachableStore.

Definition refused : Thrown := CacheError "connect ECONNREFUSED".

(** Modelled from the spec: the missing [RedisService] when the store is
    unreachable (sections 4.4 and 7): every call fails. *)
Definition service : RedisService unit :=
  mkRedisService
    (fun _ _ _ => throw refused)
    (fun _ => throw refused)
    (fun _ => throw refused)
    (fun _ => throw refused).

End UnreachableStore.

(** ** The auth service *)

(** The per-connection session: the stored CAPTCHA answer and the instant
    it expires at, either of which may be missing. *)
Record SessionInfo := mkSession {
  captcha : option string;
  expirationTimestamp : option Z
}.

(** [session?.captcha] *)
Definition sessionCaptcha (session : option SessionInfo) : option string :=
  match session with
  | Some s => captcha s
  | None => None
  end.

(** [session?.expirationTimestamp] *)
Definition sessionExpirationTimestamp (session : option SessionInfo)
    : option Z :=
  match session with
  | Some s => expirationTimestamp s
  | None => None
  end.

Record UserLogoutDto := mkUserLogoutDto {
  id : Z;
  userName : string
}.

Section AuthService.

Context {S : Type}.
Variable jwtService : Jwt.JwtService.
Variable configService : ConfigService.
Variable redis : RedisService S.

(** The template literal around the awaited token holds that one string
    and nothing else, so it is the token. *)
Definition generateAccessToken (id : Z) (userName : string)
    : Eff S Jwt.Token :=
  (await token <- Jwt.signAsync jwtService
                    (Jwt.mkClaims id (Some userName)) None in
   ret token)%eff.

Definition verifyAccessToken (token : Jwt.Token) : Eff S Jwt.JwtPayload :=
  tryCatch
    (Jwt.verifyAsync jwtService token
       (Jwt.mkVerifyOptions (Some (JWT_ACCESS_TOKEN_SECRET configService))))
    (fun e =>
       throw (UnauthorizedException UNAUTHORIZED_ACCESS_TOKEN (Some e))).

Definition generateRefreshToken (id : Z) : Eff S Jwt.Token :=
  Jwt.signAsync jwtService (Jwt.mkClaims id None)
    (Some (Jwt.mkSignOptions
             (Some (JWT_REFRESH_TOKEN_SECRET configService))
             (Some (JWT_REFRESH_TOKEN_EXPIRES_IN configService)))).

Definition verifyRefresToken (token : Jwt.Token) : Eff S Jwt.JwtPayload :=
  tryCatch
    (Jwt.verifyAsync jwtService token
       (Jwt.mkVerifyOptions (Some (JWT_REFRESH_TOKEN_SECRET configService))))
    (fun e =>
       throw (UnauthorizedException UNAUTHORIZED_REFRESH_TOKEN (Some e))).

Definition parseToken (token : Jwt.Token) : Eff S Jwt.JwtPayload :=
  Jwt.verifyAsync jwtService token
    (Jwt.mkVerifyOptions (Some (JWT_ACCESS_TOKEN_SECRET configService))).

Definition setTokenToRedis (key : string) (token : Jwt.Token)
    : Eff S unit :=
  setCache redis key token (JWT_ACCESS_TOKEN_EXPIRES_IN configService).

Definition redisTokenKeyStr (id : Z) (userName : string) : string :=
  template [Lit "user_token:"; NumberHole id; Lit "-"; StringHole userName].

Definition getRedisToken (id : Z) (userName : string)
    : Eff S (option Jwt.Token) :=
  getCache redis (redisTokenKeyStr id userName).

Definition verifyCaptcha (captcha : string) (session : option SessionInfo)
    : Eff S unit :=
  if negb (truthyString (sessionCaptcha session)) then
    throw (UnauthorizedException UNAUTHORIZED_NOTFOUND_SESSION None)
  else
    (await now <- dateNow in
     if (negb (truthyNumber (sessionExpirationTimestamp session))
         || match sessionExpirationTimestamp session with
            | Some t => (now >? t)%Z
            | None => false
            end)%bool
     then throw (UnauthorizedException UNAUTHORIZED_CAPTCHA_EXPIRE None)
     else
       match sessionCaptcha session with
       | Some stored =>
           if negb (String.eqb (toLocaleLowerCase captcha)
                               (toLocaleLowerCase stored))
           then throw (UnauthorizedException UNAUTHORIZED_CAPTCHA_ERROR None)
           else ret tt
       | None =>
           throw (Error "Cannot read properties of undefined")
       end)%eff.

Definition refreshAccessToken (id : Z) (userName : string)
    : Eff S Jwt.Token :=
  tryCatch
    (await token <- generateAccessToken id userName in
     await _ <- setTokenToRedis (redisTokenKeyStr id userName) token in
     ret token)%eff
    (fun e =>
       throw (InternalServerErrorException INTERNALSERVERERROR_REDIS e)).

Definition getTokenTTL (key : string) : Eff S Z := getTTL redis key.

Definition clearUserToken (data : UserLogoutDto) : Eff S unit :=
  let id := id data in
  let userName := userName data in
  let key := redisTokenKeyStr id userName in
  (await val <- clearCatch redis key in
   consoleLog (template [Lit "val ------"; Lit " "; NumberHole val]))%eff.

End AuthService.

(** ** Sample data *)

Module Sample.

Definition config : ConfigService :=
  mkConfig "access-secret" "refresh-secret" 3600 604800.

Definition jwtService : Jwt.JwtService := Jwt.register config.

(** 2023-11-14T22:13:20Z, an empty cache, a silent console. *)
Definition world : World (gmap string MemoryStore.CacheEntry) :=
  mkWorld 1700000000000 ∅ [].

(** The same instant with the store out of reach. *)
Definition offline : World unit := mkWorld 1700000000000 tt [].

Definition later {S} (ms : Z) (w : World S) : World S :=
  mkWorld (clock w + ms) (redisState w) (console w).

Definition user : UserLogoutDto := mkUserLogoutDto 7 "peng".

(** Two access tokens of that user, issued one second apart. *)
Definition token1 : Jwt.Token :=
  let p := Jwt.stamp 1700000000000 (Jwt.mkClaims 7 (Some "peng"))
             (Some 3600) in
  Jwt.Jws p (Jwt.HS256 "access-secret" p).

Definition token2 : Jwt.Token :=
  let p := Jwt.stamp 1700000001000 (Jwt.mkClaims 7 (Some "peng"))
             (Some 3600) in
  Jwt.Jws p (Jwt.HS256 "access-secret" p).

Definition session : option SessionInfo :=
  Some (mkSession (Some "aB3d") (Some (1700000000000 + 60000))).

End Sample.

Module Fixture.

(** A configuration whose access-token secret was left empty. *)
Definition noSecret : ConfigService :=
  mkConfig "" "refresh-secret" 3600 604800.

(** A JWT module registered with a secret of its own, which is not the
    access-token secret of [Sample.config]. *)
Definition otherModule : Jwt.JwtService :=
  Jwt.mkJwtService (Jwt.mkModuleOptions (Some "module-secret") (Some 3600)).

(** A JWT module registered without a secret. *)
Definition bareModule : Jwt.JwtService :=
  Jwt.mkJwtService (Jwt.mkModuleOptions None None).

End Fixture.

(** ** Characters of a string *)

(** No character of [s] is [c]. *)
Fixpoint lacksChar (c : ascii) (s : string) : Prop :=
  match s with
  | EmptyString => True
  | String a s' => a <> c /\ lacksChar c s'
  end.

(** * Properties *)

(** ** The cache key *)

Lemma append_empty_r (s : string) : s ++ "" = s.
Proof.
  induction s as [|c s IH]; [reflexivity |].
  change (String c (s ++ "") = String c s). now rewrite IH.
Qed.

Lemma append_cancel_l (p a b : string) : p ++ a = p ++ b -> a = b.
Proof.
  induction p as [|c p IH]; intros E; [exact E |].
  change (String c (p ++ a) = String c (p ++ b)) in E.
  injection E as E. now apply IH.
Qed.

Lemma template_key (id : Z) (userName : string) :
  template [Lit "user_token:"; NumberHole id; Lit "-"; StringHole userName]
  = "user_token:" ++ numberToString id ++ "-" ++ userName.
Proof.
  cbn [template renderPart]. now rewrite append_empty_r.
Qed.

Lemma redisTokenKeyStr_format_text (id : Z) (userName : string) :
  redisTokenKeyStr id userName
  = "user_token:" ++ numberToString id ++ "-" ++ userName.
Proof.
  unfold redisTokenKeyStr. apply template_key.
Qed.

(** C8. The cache key of a user is the text [user_token:], the id in
    decimal, a hyphen, and the user name; it depends on nothing else. *)
Theorem redisTokenKeyStr_format (id : Z) (userName : string) :
  redisTokenKeyStr id userName
  = "user_token:" ++ numberToString id ++ "-" ++ userName.
Proof.
  unfold redisTokenKeyStr. apply template_key.
Qed.

Example redisTokenKeyStr_peng :
  redisTokenKeyStr 7 "peng" = "user_token:7-peng".
Proof. reflexivity. Qed.

Example redisTokenKeyStr_hyphenated :
  redisTokenKeyStr 120 "a-b" = "user_token:120-a-b".
Proof. reflexivity. Qed.

Lemma string_of_uint_lacks_hyphen (d : Decimal.uint) :
  lacksChar "-" (NilEmpty.string_of_uint d).
Proof.
  induction d; simpl; auto; split; auto; discriminate.
Qed.

Lemma numberToString_lacks_hyphen (n : Z) :
  0 <= n -> lacksChar "-" (numberToString n).
Proof.
  intros Hn. unfold numberToString.
  destruct n as [|p|p]; [| |lia]; cbn [Z.to_int NilEmpty.string_of_int].
  - simpl. split; [discriminate | exact I].
  - apply string_of_uint_lacks_hyphen.
Qed.

Lemma numberToString_inj (n m : Z) :
  numberToString n = numberToString m -> n = m.
Proof.
  unfold numberToString. intros H.
  apply DecimalZ.to_int_inj.
  assert (E : Some (Z.to_int n) = Some (Z.to_int m)).
  { rewrite <- !NilEmpty.isi. now rewrite H. }
  now inversion E.
Qed.

(** Two texts that agree and whose first hyphen ends a hyphen-free head
    have the same head and the same tail. *)
Lemma split_at_hyphen (a b x y : string) :
  lacksChar "-" a -> lacksChar "-" b ->
  a ++ String "-" x = b ++ String "-" y -> a = b /\ x = y.
Proof.
  revert b. induction a as [|c a IH]; intros [|d b] Ha Hb E.
  - injection E as ->. now split.
  - injection E as Hc _. destruct Hb as [Hd _]. now rewrite Hc in Hd.
  - injection E as Hc _. destruct Ha as [Hd _]. now rewrite Hc in Hd.
  - injection E as -> E. destruct Ha as [_ Ha], Hb as [_ Hb].
    destruct (IH b Ha Hb E) as [-> ->]. now split.
Qed.

(** C10. On non-negative integer ids the cache key determines the pair it
    was built from: two pairs with the same key have the same id and the
    same user name. *)
Theorem redisTokenKeyStr_injective (id1 id2 : Z) (n1 n2 : string) :
  0 <= id1 -> 0 <= id2 ->
  redisTokenKeyStr id1 n1 = redisTokenKeyStr id2 n2 ->
  id1 = id2 /\ n1 = n2.
Proof.
  intros H1 H2. rewrite !redisTokenKeyStr_format_text. intros E.
  apply append_cancel_l in E.
  change (numberToString id1 ++ String "-" n1
          = numberToString id2 ++ String "-" n2) in E.
  apply split_at_hyphen in E; auto using numberToString_lacks_hyphen.
  destruct E as [En ->]. split; [now apply numberToString_inj | reflexivity].
Qed.

Lemma redisTokenKeyStr_injective_witness :
  redisTokenKeyStr 7 "a-b" = redisTokenKeyStr 7 "a-b" /\
  (7 = 7 /\ "a-b" = "a-b").
Proof.
  split; [reflexivity |].
  apply (redisTokenKeyStr_injective 7 7 "a-b" "a-b"); [lia | lia | reflexivity].
Defined.

(** The keys of different users differ, also when a user name contains a
    hyphen or digits. *)
Example redisTokenKeyStr_distinct :
  redisTokenKeyStr 1 "2-x" <> redisTokenKeyStr 12 "x" /\
  redisTokenKeyStr 1 "1-a" <> redisTokenKeyStr 11 "a".
Proof. split; discriminate. Qed.

(** ** The CAPTCHA check *)

(** The outcome of [verifyCaptcha] as a decision table: the stored answer,
    then the expiry, then the comparison. The world is left as it was. *)
Lemma verifyCaptcha_table {S} (answer : string) (session : option SessionInfo)
    (w : World S) :
  verifyCaptcha answer session w =
  (match sessionCaptcha session with
   | None => inl (UnauthorizedException UNAUTHORIZED_NOTFOUND_SESSION None)
   | Some stored =>
       if String.eqb stored "" then
         inl (UnauthorizedException UNAUTHORIZED_NOTFOUND_SESSION None)
       else
         match sessionExpirationTimestamp session with
         | None => inl (UnauthorizedException UNAUTHORIZED_CAPTCHA_EXPIRE None)
         | Some t =>
             if (Z.eqb t 0 || (clock w >? t)%Z)%bool then
               inl (UnauthorizedException UNAUTHORIZED_CAPTCHA_EXPIRE None)
             else if String.eqb (toLocaleLowerCase answer)
                                (toLocaleLowerCase stored)
             then inr tt
             else inl (UnauthorizedException UNAUTHORIZED_CAPTCHA_ERROR None)
         end
   end, w).
Proof.
  unfold verifyCaptcha.
  destruct (sessionCaptcha session) as [stored|]; cbn [truthyString negb];
    [| reflexivity].
  destruct (String.eqb stored ""); cbn [negb]; [reflexivity |].
  unfold bind, dateNow, throw, ret.
  destruct (sessionExpirationTimestamp session) as [t|];
    cbn [truthyNumber negb orb]; [| reflexivity].
  destruct (Z.eqb t 0); cbn [negb orb]; [reflexivity |].
  destruct (clock w >? t)%Z; [reflexivity |].
  now destruct (String.eqb (toLocaleLowerCase answer) (toLocaleLowerCase stored)).
Qed.

(** C2. At any instant after the epoch, [verifyCaptcha] returns without
    error exactly when the session holds a non-empty answer, an expiry that
    has not passed, and the supplied answer equals the stored one after
    lowercasing both. It fails with [UNAUTHORIZED_NOTFOUND_SESSION] when the
    stored answer is absent; otherwise with [UNAUTHORIZED_CAPTCHA_EXPIRE]
    when the expiry is absent or has passed; otherwise with
    [UNAUTHORIZED_CAPTCHA_ERROR] when the lowercased answers differ. It
    changes nothing. *)
Theorem verifyCaptcha_spec {S} (answer : string)
    (session : option SessionInfo) (w : World S) :
  0 < clock w ->
  snd (verifyCaptcha answer session w) = w /\
  (fst (verifyCaptcha answer session w) = inr tt <->
   exists stored t,
     sessionCaptcha session = Some stored /\ stored <> "" /\
     sessionExpirationTimestamp session = Some t /\ clock w <= t /\
     toLocaleLowerCase answer = toLocaleLowerCase stored) /\
  (sessionCaptcha session = None ->
   fst (verifyCaptcha answer session w)
   = inl (UnauthorizedException UNAUTHORIZED_NOTFOUND_SESSION None)) /\
  (forall stored,
     sessionCaptcha session = Some stored -> stored <> "" ->
     (sessionExpirationTimestamp session = None \/
      exists t, sessionExpirationTimestamp session = Some t /\ clock w > t) ->
     fst (verifyCaptcha answer session w)
     = inl (UnauthorizedException UNAUTHORIZED_CAPTCHA_EXPIRE None)) /\
  (forall stored t,
     sessionCaptcha session = Some stored -> stored <> "" ->
     sessionExpirationTimestamp session = Some t -> clock w <= t ->
     toLocaleLowerCase answer <> toLocaleLowerCase stored ->
     fst (verifyCaptcha answer session w)
     = inl (UnauthorizedException UNAUTHORIZED_CAPTCHA_ERROR None)).
Proof.
  intros Hnow. rewrite verifyCaptcha_table. cbn [fst snd].
  split; [reflexivity |].
  split; [| split; [| split]].
  - split.
    + destruct (sessionCaptcha session) as [stored|]; [| discriminate].
      destruct (String.eqb_spec stored ""); [discriminate |].
      destruct (sessionExpirationTimestamp session) as [t|]; [| discriminate].
      destruct (Z.eqb_spec t 0); cbn [orb]; [discriminate |].
      destruct (Z.gtb_spec (clock w) t); [discriminate |].
      destruct (String.eqb_spec (toLocaleLowerCase answer)
                                (toLocaleLowerCase stored)); [| discriminate].
      intros _. exists stored, t. repeat split; auto.
    + intros (stored & t & -> & Hne & -> & Ht & Heq).
      destruct (String.eqb_spec stored ""); [contradiction |].
      destruct (Z.eqb_spec t 0); [lia |]. cbn [orb].
      destruct (Z.gtb_spec (clock w) t); [lia |].
      destruct (String.eqb_spec (toLocaleLowerCase answer)
                                (toLocaleLowerCase stored));
        [reflexivity | contradiction].
  - now intros ->.
  - intros stored -> Hne Hexp.
    destruct (String.eqb_spec stored ""); [contradiction |].
    destruct Hexp as [-> | (t & -> & Ht)]; [reflexivity |].
    destruct (Z.eqb_spec t 0); [reflexivity |]. cbn [orb].
    destruct (Z.gtb_spec (clock w) t); [reflexivity | lia].
  - intros stored t -> Hne -> Ht Hneq.
    destruct (String.eqb_spec stored ""); [contradiction |].
    destruct (Z.eqb_spec t 0); [lia |]. cbn [orb].
    destruct (Z.gtb_spec (clock w) t); [lia |].
    destruct (String.eqb_spec (toLocaleLowerCase answer)
                              (toLocaleLowerCase stored));
      [contradiction | reflexivity].
Qed.

Lemma verifyCaptcha_spec_witness :
  0 < clock Sample.world /\
  fst (verifyCaptcha "AB3D" Sample.session Sample.world) = inr tt /\
  fst (verifyCaptcha "AB3E" Sample.session Sample.world)
  = inl (UnauthorizedException UNAUTHORIZED_CAPTCHA_ERROR None) /\
  fst (verifyCaptcha "AB3D"
         (Some (mkSession (Some "aB3d") (Some (1700000000000 - 1))))
         Sample.world)
  = inl (UnauthorizedException UNAUTHORIZED_CAPTCHA_EXPIRE None) /\
  fst (verifyCaptcha "AB3D" (Some (mkSession None (Some 1700000060000)))
         Sample.world)
  = inl (UnauthorizedException UNAUTHORIZED_NOTFOUND_SESSION None).
Proof.
  assert (Hnow : 0 < clock Sample.world) by reflexivity.
  split; [exact Hnow |].
  split; [| split; [| split]].
  - destruct (verifyCaptcha_spec "AB3D" Sample.session Sample.world Hnow)
      as (_ & Hok & _).
    apply Hok. exists "aB3d", 1700000060000.
    repeat split; [discriminate | cbn; lia].
  - destruct (verifyCaptcha_spec "AB3E" Sample.session Sample.world Hnow)
      as (_ & _ & _ & _ & Hmismatch).
    apply (Hmismatch "aB3d" 1700000060000);
      [reflexivity | discriminate | reflexivity | cbn; lia | discriminate].
  - destruct (verifyCaptcha_spec "AB3D"
                (Some (mkSession (Some "aB3d") (Some (1700000000000 - 1))))
                Sample.world Hnow) as (_ & _ & _ & Hexpired & _).
    apply (Hexpired "aB3d"); [reflexivity | discriminate |].
    right. exists 1699999999999. split; reflexivity.
  - destruct (verifyCaptcha_spec "AB3D"
                (Some (mkSession None (Some 1700000060000)))
                Sample.world Hnow) as (_ & _ & Habsent & _).
    apply Habsent. reflexivity.
Defined.

(** C9. A session whose stored answer is the empty string is treated like
    a session without one: whatever the supplied answer and the expiry,
    [verifyCaptcha] fails with [UNAUTHORIZED_NOTFOUND_SESSION], as it does
    when the field or the session itself is missing. *)
Theorem verifyCaptcha_empty_stored {S} (answer : string) (ts : option Z)
    (w : World S) :
  verifyCaptcha answer (Some (mkSession (Some "") ts)) w
  = (inl (UnauthorizedException UNAUTHORIZED_NOTFOUND_SESSION None), w) /\
  verifyCaptcha answer (Some (mkSession (Some "") ts)) w
  = verifyCaptcha answer (Some (mkSession None ts)) w /\
  verifyCaptcha answer (Some (mkSession (Some "") ts)) w
  = verifyCaptcha answer None w.
Proof.
  repeat split.
Qed.

Example verifyCaptcha_empty_answer_empty_stored :
  fst (verifyCaptcha "" (Some (mkSession (Some "") (Some 1700000060000)))
         Sample.world)
  = inl (UnauthorizedException UNAUTHORIZED_NOTFOUND_SESSION None).
Proof. reflexivity. Qed.


(** ** Tokens *)

Lemma truthyString_Some (s : string) : s <> "" -> truthyString (Some s) = true.
Proof.
  intros H. cbn [truthyString]. now destruct (String.eqb_spec s "").
Qed.

Lemma orElse_Some (s : string) (b : option string) :
  s <> "" -> orElse (Some s) b = Some s.
Proof.
  intros H. unfold orElse. now rewrite truthyString_Some.
Qed.

(** Signing under a non-empty secret yields the stamped payload with a
    signature made under that secret. *)
Lemma sign_ok (now : Z) (payload : Jwt.Claims) (key : string)
    (expiresIn : option Z) :
  key <> "" ->
  Jwt.sign now payload (Some key) expiresIn
  = inr (Jwt.Jws (Jwt.stamp now payload expiresIn)
           (Jwt.HS256 key (Jwt.stamp now payload expiresIn))).
Proof.
  intros H. unfold Jwt.sign. now rewrite truthyString_Some.
Qed.

(** A token signed under [key] verifies under [key] until its expiry. *)
Lemma verify_same_secret (now : Z) (p : Jwt.JwtPayload) (key : string) :
  key <> "" ->
  match Jwt.exp p with
  | Some e => Jwt.clockTimestamp now < e
  | None => True
  end ->
  Jwt.verify now (Jwt.Jws p (Jwt.HS256 key p)) (Some key) = inr p.
Proof.
  intros Hk He. unfold Jwt.verify. rewrite truthyString_Some by assumption.
  rewrite bool_decide_eq_true_2 by reflexivity.
  destruct (Jwt.exp p) as [e|]; [| reflexivity].
  destruct (Z.geb_spec (Jwt.clockTimestamp now) e); [lia | reflexivity].
Qed.

(** A token signed under one secret is rejected under any other, at any
    time. *)
Lemma verify_other_secret (now : Z) (p : Jwt.JwtPayload) (key key' : string) :
  key' <> "" -> key <> key' ->
  Jwt.verify now (Jwt.Jws p (Jwt.HS256 key p)) (Some key')
  = inl (JsonWebTokenError "invalid signature").
Proof.
  intros Hk Hne. unfold Jwt.verify. rewrite truthyString_Some by assumption.
  rewrite bool_decide_eq_false_2; [reflexivity |].
  intros E. injection E as E. contradiction.
Qed.

(** Issuing an access token reads the clock and nothing else. *)
Lemma generateAccessToken_run {S} (cfg : ConfigService) (id : Z)
    (name : string) (w : World S) :
  JWT_ACCESS_TOKEN_SECRET cfg <> "" ->
  generateAccessToken (Jwt.register cfg) id name w
  = (inr (let p := Jwt.stamp (clock w) (Jwt.mkClaims id (Some name))
                     (Some (JWT_ACCESS_TOKEN_EXPIRES_IN cfg)) in
          Jwt.Jws p (Jwt.HS256 (JWT_ACCESS_TOKEN_SECRET cfg) p)), w).
Proof.
  intros H. unfold generateAccessToken, Jwt.signAsync, bind, dateNow,
    liftResult, ret, Jwt.register.
  cbn [Jwt.options Jwt.module_secret Jwt.module_expiresIn].
  change (orElse None ?b) with b.
  now rewrite sign_ok.
Qed.

Lemma generateRefreshToken_run {S} (cfg : ConfigService) (id : Z)
    (w : World S) :
  JWT_REFRESH_TOKEN_SECRET cfg <> "" ->
  generateRefreshToken (S := S) (Jwt.register cfg) cfg id w
  = (inr (let p := Jwt.stamp (clock w) (Jwt.mkClaims id None)
                     (Some (JWT_REFRESH_TOKEN_EXPIRES_IN cfg)) in
          Jwt.Jws p (Jwt.HS256 (JWT_REFRESH_TOKEN_SECRET cfg) p)), w).
Proof.
  intros H. unfold generateRefreshToken, Jwt.signAsync, bind, dateNow,
    liftResult.
  cbn [Jwt.sign_secret Jwt.sign_expiresIn].
  rewrite orElse_Some by assumption. now rewrite sign_ok.
Qed.

(** Verification reads the clock and nothing else: its outcome is the pure
    check under the secret named in the call, wrapped on failure. *)
Lemma verifyAccessToken_run {S} (cfg : ConfigService) (token : Jwt.Token)
    (w : World S) :
  JWT_ACCESS_TOKEN_SECRET cfg <> "" ->
  verifyAccessToken (Jwt.register cfg) cfg token w
  = (match Jwt.verify (clock w) token (Some (JWT_ACCESS_TOKEN_SECRET cfg)) with
     | inr p => inr p
     | inl e => inl (UnauthorizedException UNAUTHORIZED_ACCESS_TOKEN (Some e))
     end, w).
Proof.
  intros H. unfold verifyAccessToken, tryCatch, Jwt.verifyAsync, bind,
    dateNow, liftResult, throw.
  cbn [Jwt.verify_secret]. rewrite orElse_Some by assumption.
  now destruct (Jwt.verify _ _ _).
Qed.

Lemma verifyRefresToken_run {S} (cfg : ConfigService) (token : Jwt.Token)
    (w : World S) :
  JWT_REFRESH_TOKEN_SECRET cfg <> "" ->
  verifyRefresToken (Jwt.register cfg) cfg token w
  = (match Jwt.verify (clock w) token (Some (JWT_REFRESH_TOKEN_SECRET cfg)) with
     | inr p => inr p
     | inl e => inl (UnauthorizedException UNAUTHORIZED_REFRESH_TOKEN (Some e))
     end, w).
Proof.
  intros H. unfold verifyRefresToken, tryCatch, Jwt.verifyAsync, bind,
    dateNow, liftResult, throw.
  cbn [Jwt.verify_secret]. rewrite orElse_Some by assumption.
  now destruct (Jwt.verify _ _ _).
Qed.

(** Issue and verify, for worlds over any two stores. *)
Lemma access_token_issue_verify {S} (cfg : ConfigService) (id : Z)
    (name : string) (w : World S) :
  JWT_ACCESS_TOKEN_SECRET cfg <> "" ->
  exists (token : Jwt.Token) (payload : Jwt.JwtPayload),
    generateAccessToken (Jwt.register cfg) id name w = (inr token, w) /\
    Jwt.sub payload = id /\
    Jwt.userName payload = Some name /\
    forall (S' : Type) (w' : World S'),
      Jwt.clockTimestamp (clock w')
      < Jwt.clockTimestamp (clock w) + JWT_ACCESS_TOKEN_EXPIRES_IN cfg ->
      verifyAccessToken (Jwt.register cfg) cfg token w' = (inr payload, w').
Proof.
  intros Hsecret.
  set (p := Jwt.stamp (clock w) (Jwt.mkClaims id (Some name))
              (Some (JWT_ACCESS_TOKEN_EXPIRES_IN cfg))).
  exists (Jwt.Jws p (Jwt.HS256 (JWT_ACCESS_TOKEN_SECRET cfg) p)), p.
  split; [now apply generateAccessToken_run |].
  split; [reflexivity |]. split; [reflexivity |].
  intros S' w' Hbefore.
  rewrite verifyAccessToken_run by assumption.
  rewrite verify_same_secret; [reflexivity | assumption | exact Hbefore].
Qed.

(** C1. With a non-empty access-token secret configured,
    [generateAccessToken id userName] returns a token whose payload carries
    [sub = id] and the given user name and whose signature is made under
    the access-token secret; [verifyAccessToken] applied to that token at
    any instant before its expiry returns that payload. Neither call
    changes the world. *)
Theorem access_token_round_trip {S} (cfg : ConfigService) (id : Z)
    (userName : string) (w : World S) :
  JWT_ACCESS_TOKEN_SECRET cfg <> "" ->
  exists (token : Jwt.Token) (payload : Jwt.JwtPayload),
    generateAccessToken (Jwt.register cfg) id userName w = (inr token, w) /\
    token = Jwt.Jws payload (Jwt.HS256 (JWT_ACCESS_TOKEN_SECRET cfg) payload) /\
    Jwt.sub payload = id /\
    Jwt.userName payload = Some userName /\
    Jwt.exp payload
    = Some (Jwt.clockTimestamp (clock w) + JWT_ACCESS_TOKEN_EXPIRES_IN cfg) /\
    forall w' : World S,
      Jwt.clockTimestamp (clock w')
      < Jwt.clockTimestamp (clock w) + JWT_ACCESS_TOKEN_EXPIRES_IN cfg ->
      verifyAccessToken (Jwt.register cfg) cfg token w' = (inr payload, w').
Proof.
  intros Hsecret.
  eexists. eexists.
  split; [apply generateAccessToken_run; assumption |].
  cbv zeta. split; [reflexivity |]. repeat split.
  intros w' Hbefore.
  rewrite verifyAccessToken_run by assumption.
  rewrite verify_same_secret; [reflexivity | assumption |].
  exact Hbefore.
Qed.

Lemma access_token_round_trip_witness :
  exists (token : Jwt.Token) (payload : Jwt.JwtPayload),
    generateAccessToken Sample.jwtService 7 "peng" Sample.world
    = (inr token, Sample.world) /\
    verifyAccessToken Sample.jwtService Sample.config token
      (Sample.later 3599000 Sample.world)
    = (inr payload, Sample.later 3599000 Sample.world) /\
    Jwt.sub payload = 7 /\ Jwt.userName payload = Some "peng".
Proof.
  destruct (access_token_round_trip Sample.config 7 "peng" Sample.world)
    as (token & payload & Hgen & _ & Hsub & Hname & _ & Hverify);
    [discriminate |].
  exists token, payload.
  split; [exact Hgen |].
  split; [apply Hverify; reflexivity |].
  split; [exact Hsub | exact Hname].
Defined.

(** With no grace window: at the second of expiry the token is rejected. *)
Example access_token_expired_at_boundary :
  fst (verifyAccessToken Sample.jwtService Sample.config
         (let p := Jwt.stamp 1700000000000 (Jwt.mkClaims 7 (Some "peng"))
                     (Some 3600) in
          Jwt.Jws p (Jwt.HS256 "access-secret" p))
         (Sample.later 3600000 Sample.world))
  = inl (UnauthorizedException UNAUTHORIZED_ACCESS_TOKEN
           (Some (TokenExpiredError 1700003600000))).
Proof. vm_compute. reflexivity. Qed.

(** C5. With two non-empty, distinct secrets configured, a token issued by
    [generateRefreshToken] is rejected by [verifyAccessToken] with
    [UNAUTHORIZED_ACCESS_TOKEN], and a token issued by
    [generateAccessToken] is rejected by [verifyRefresToken] with
    [UNAUTHORIZED_REFRESH_TOKEN], at any instant; in both cases the
    underlying error is an invalid signature. *)
Theorem cross_kind_rejection {S} (cfg : ConfigService) (id : Z)
    (userName : string) (w w' : World S) :
  JWT_ACCESS_TOKEN_SECRET cfg <> "" ->
  JWT_REFRESH_TOKEN_SECRET cfg <> "" ->
  JWT_ACCESS_TOKEN_SECRET cfg <> JWT_REFRESH_TOKEN_SECRET cfg ->
  (exists refreshToken : Jwt.Token,
     generateRefreshToken (Jwt.register cfg) cfg id w = (inr refreshToken, w) /\
     verifyAccessToken (Jwt.register cfg) cfg refreshToken w'
     = (inl (UnauthorizedException UNAUTHORIZED_ACCESS_TOKEN
               (Some (JsonWebTokenError "invalid signature"))), w')) /\
  (exists accessToken : Jwt.Token,
     generateAccessToken (Jwt.register cfg) id userName w
     = (inr accessToken, w) /\
     verifyRefresToken (Jwt.register cfg) cfg accessToken w'
     = (inl (UnauthorizedException UNAUTHORIZED_REFRESH_TOKEN
               (Some (JsonWebTokenError "invalid signature"))), w')).
Proof.
  intros Ha Hr Hne. split.
  - eexists. split; [apply generateRefreshToken_run; assumption |].
    rewrite verifyAccessToken_run by assumption. cbv zeta.
    rewrite verify_other_secret; [reflexivity | assumption |].
    intros E. apply Hne. now symmetry.
  - eexists. split; [apply generateAccessToken_run; assumption |].
    rewrite verifyRefresToken_run by assumption. cbv zeta.
    now rewrite verify_other_secret.
Qed.

Lemma cross_kind_rejection_witness :
  (exists refreshToken : Jwt.Token,
     generateRefreshToken Sample.jwtService Sample.config 7 Sample.world
     = (inr refreshToken, Sample.world) /\
     fst (verifyAccessToken Sample.jwtService Sample.config refreshToken
            (Sample.later 1000 Sample.world))
     = inl (UnauthorizedException UNAUTHORIZED_ACCESS_TOKEN
              (Some (JsonWebTokenError "invalid signature")))) /\
  (exists accessToken : Jwt.Token,
     generateAccessToken Sample.jwtService 7 "peng" Sample.world
     = (inr accessToken, Sample.world) /\
     fst (verifyRefresToken Sample.jwtService Sample.config accessToken
            (Sample.later 1000 Sample.world))
     = inl (UnauthorizedException UNAUTHORIZED_REFRESH_TOKEN
              (Some (JsonWebTokenError "invalid signature")))).
Proof.
  destruct (cross_kind_rejection Sample.config 7 "peng" Sample.world
              (Sample.later 1000 Sample.world))
    as [(rt & Hrt & Hrej) (tok & Htok & Hrej')];
    [discriminate | discriminate | discriminate | ].
  split.
  - exists rt. split; [exact Hrt | exact (f_equal fst Hrej)].
  - exists tok. split; [exact Htok | exact (f_equal fst Hrej')].
Defined.

(** ** Refreshing and revoking, for any cache store *)

(** Issuing an access token never changes the world, whatever the JWT
    module was registered with. *)
Lemma generateAccessToken_pure {S} (jwt : Jwt.JwtService) (id : Z)
    (name : string) (w : World S) :
  snd (generateAccessToken jwt id name w) = w.
Proof.
  unfold generateAccessToken, Jwt.signAsync, bind, dateNow, liftResult, ret.
  now destruct (Jwt.sign _ _ _ _).
Qed.

(** [refreshAccessToken] as the sequence it runs: issue, write, return,
    with any failure wrapped. *)
Lemma refreshAccessToken_run {S} (jwt : Jwt.JwtService) (cfg : ConfigService)
    (redis : RedisService S) (id : Z) (name : string) (w : World S) :
  refreshAccessToken jwt cfg redis id name w =
  match generateAccessToken jwt id name w with
  | (inr token, w1) =>
      match setCache redis (redisTokenKeyStr id name) token
              (JWT_ACCESS_TOKEN_EXPIRES_IN cfg) w1 with
      | (inr _, w2) => (inr token, w2)
      | (inl e, w2) =>
          (inl (InternalServerErrorException INTERNALSERVERERROR_REDIS e), w2)
      end
  | (inl e, w1) =>
      (inl (InternalServerErrorException INTERNALSERVERERROR_REDIS e), w1)
  end.
Proof.
  unfold refreshAccessToken, tryCatch, bind, setTokenToRedis, throw, ret.
  destruct (generateAccessToken jwt id name w) as [[e|token] w1];
    [reflexivity |].
  now destruct (setCache redis _ token _ w1) as [[e|u] w2].
Qed.

(** C4. For any cache store: when [refreshAccessToken] succeeds, the token
    it returns is the one just issued by [generateAccessToken], and that
    token was written with [setCache] under [redisTokenKeyStr id userName];
    when the write fails with an error [e], [refreshAccessToken] fails with
    an [InternalServerErrorException] of code [INTERNALSERVERERROR_REDIS]
    that carries [e]; and it fails in no other way. *)
Theorem refreshAccessToken_spec {S} (jwt : Jwt.JwtService)
    (cfg : ConfigService) (redis : RedisService S) (id : Z)
    (userName : string) (w : World S) :
  (forall token w',
     refreshAccessToken jwt cfg redis id userName w = (inr token, w') ->
     generateAccessToken jwt id userName w = (inr token, w) /\
     setCache redis (redisTokenKeyStr id userName) token
       (JWT_ACCESS_TOKEN_EXPIRES_IN cfg) w = (inr tt, w')) /\
  (forall token w',
     generateAccessToken jwt id userName w = (inr token, w) ->
     setCache redis (redisTokenKeyStr id userName) token
       (JWT_ACCESS_TOKEN_EXPIRES_IN cfg) w = (inr tt, w') ->
     refreshAccessToken jwt cfg redis id userName w = (inr token, w')) /\
  (forall token e w',
     generateAccessToken jwt id userName w = (inr token, w) ->
     setCache redis (redisTokenKeyStr id userName) token
       (JWT_ACCESS_TOKEN_EXPIRES_IN cfg) w = (inl e, w') ->
     refreshAccessToken jwt cfg redis id userName w
     = (inl (InternalServerErrorException INTERNALSERVERERROR_REDIS e), w')) /\
  (forall err w',
     refreshAccessToken jwt cfg redis id userName w = (inl err, w') ->
     exists e, err = InternalServerErrorException INTERNALSERVERERROR_REDIS e).
Proof.
  rewrite refreshAccessToken_run.
  pose proof (generateAccessToken_pure jwt id userName w) as Hpure.
  destruct (generateAccessToken jwt id userName w) as [[e0|token0] w1].
  - cbn [snd] in Hpure. subst w1. split; [| split; [| split]].
    + intros token w' [=].
    + intros token w' [=].
    + intros token e w' [=].
    + intros err w' [= <- _]. now exists e0.
  - cbn [snd] in Hpure. subst w1. split; [| split; [| split]].
    + intros token w'.
      destruct (setCache redis _ token0 _ w) as [[e|[]] w2] eqn:E;
        intros [=]. subst. now split.
    + intros token w' [= <-] ->. reflexivity.
    + intros token e w' [= <-] ->. reflexivity.
    + intros err w'.
      destruct (setCache redis _ token0 _ w) as [[e|u] w2]; intros [=].
      subst. now exists e.
Qed.

Lemma refreshAccessToken_spec_witness :
  refreshAccessToken Sample.jwtService Sample.config UnreachableStore.service
    7 "peng" Sample.offline
  = (inl (InternalServerErrorException INTERNALSERVERERROR_REDIS
            UnreachableStore.refused), Sample.offline) /\
  exists token w',
    refreshAccessToken Sample.jwtService Sample.config MemoryStore.service
      7 "peng" Sample.world = (inr token, w') /\
    fst (getRedisToken MemoryStore.service 7 "peng" w') = inr (Some token).
Proof.
  split.
  - destruct (refreshAccessToken_spec Sample.jwtService Sample.config
                UnreachableStore.service 7 "peng" Sample.offline)
      as (_ & _ & Hfail & _).
    eapply Hfail; reflexivity.
  - destruct (refreshAccessToken_spec Sample.jwtService Sample.config
                MemoryStore.service 7 "peng" Sample.world)
      as (_ & Hok & _).
    eexists. eexists. split.
    + eapply Hok; reflexivity.
    + vm_compute. reflexivity.
Defined.

(** When the write fails the error reaches the caller wrapped, whatever
    the store left behind; with the store out of reach nothing is
    cached. *)
Example refreshAccessToken_unreachable :
  fst (refreshAccessToken Sample.jwtService Sample.config
         UnreachableStore.service 7 "peng" Sample.offline)
  = inl (InternalServerErrorException INTERNALSERVERERROR_REDIS
           (CacheError "connect ECONNREFUSED")).
Proof. reflexivity. Qed.

(** C3 as stated fails: [clearUserToken] does not catch. With the store
    out of reach, [clearCatch] raises and the caller of [clearUserToken]
    observes that very error. *)
Lemma clearUserToken_not_best_effort :
  clearCatch UnreachableStore.service
    (redisTokenKeyStr (id Sample.user) (userName Sample.user)) Sample.offline
  = (inl (CacheError "connect ECONNREFUSED"), Sample.offline) /\
  clearUserToken UnreachableStore.service Sample.user Sample.offline
  = (inl (CacheError "connect ECONNREFUSED"), Sample.offline) /\
  ~ (forall (S : Type) (redis : RedisService S) (data : UserLogoutDto)
            (w : World S),
        fst (clearUserToken redis data w) = inr tt).
Proof.
  split; [reflexivity |]. split; [reflexivity |].
  intros H.
  specialize (H unit UnreachableStore.service Sample.user Sample.offline).
  discriminate H.
Qed.

(** When [clearCatch] returns, [clearUserToken] logs one line and
    returns, leaving the store as [clearCatch] left it. *)
Lemma clearUserToken_returns {S} (redis : RedisService S)
    (data : UserLogoutDto) (w : World S) (val : Z) (w' : World S) :
  clearCatch redis (redisTokenKeyStr (id data) (userName data)) w
  = (inr val, w') ->
  exists line : string,
    clearUserToken redis data w
    = (inr tt, mkWorld (clock w') (redisState w') (console w' ++ [line])).
Proof.
  intros Hval. unfold clearUserToken, bind, consoleLog. cbv zeta.
  rewrite Hval. eexists. reflexivity.
Qed.

(** C3, amended. For any cache store, [clearUserToken] calls [clearCatch]
    on [redisTokenKeyStr id userName]. When that call returns, the value is
    logged on the console and [clearUserToken] returns, leaving the store
    as [clearCatch] left it; when that call raises an error, the same
    error reaches the caller of [clearUserToken], and nothing is logged. *)
Theorem clearUserToken_propagates {S} (redis : RedisService S)
    (data : UserLogoutDto) (w : World S) :
  (forall val w',
     clearCatch redis (redisTokenKeyStr (id data) (userName data)) w
     = (inr val, w') ->
     clearUserToken redis data w
     = (inr tt,
        mkWorld (clock w') (redisState w')
          (console w' ++ ["val ------ " ++ numberToString val]))) /\
  (forall e w',
     clearCatch redis (redisTokenKeyStr (id data) (userName data)) w
     = (inl e, w') ->
     clearUserToken redis data w = (inl e, w')).
Proof.
  unfold clearUserToken, bind, consoleLog. cbv zeta. split.
  - intros val w' ->. cbn [template renderPart].
    rewrite append_empty_r. reflexivity.
  - now intros e w' ->.
Qed.

Lemma clearUserToken_propagates_witness :
  clearUserToken UnreachableStore.service Sample.user Sample.offline
  = (inl UnreachableStore.refused, Sample.offline) /\
  fst (clearUserToken MemoryStore.service Sample.user Sample.world) = inr tt /\
  console (snd (clearUserToken MemoryStore.service Sample.user Sample.world))
  = ["val ------ 0"].
Proof.
  split.
  - destruct (clearUserToken_propagates UnreachableStore.service Sample.user
                Sample.offline) as (_ & Hraise).
    apply Hraise. reflexivity.
  - destruct (clearUserToken_propagates MemoryStore.service Sample.user
                Sample.world) as (Hreturn & _).
    erewrite Hreturn by reflexivity. split; reflexivity.
Defined.

(** ** The in-memory store *)

Lemma memory_setCache (key : string) (token : Jwt.Token) (ttl : Z)
    (w : World (gmap string MemoryStore.CacheEntry)) :
  setCache MemoryStore.service key token ttl w
  = (inr tt,
     mkWorld (clock w)
       (<[key := MemoryStore.mkEntry token (clock w + ttl * 1000)]>
          (redisState w))
       (console w)).
Proof. reflexivity. Qed.

Lemma memory_getCache (key : string)
    (w : World (gmap string MemoryStore.CacheEntry)) :
  getCache MemoryStore.service key w
  = (inr (match redisState w !! key with
          | Some e =>
              if MemoryStore.live (clock w) e
              then Some (MemoryStore.value e) else None
          | None => None
          end),
     mkWorld (clock w) (redisState w) (console w)).
Proof. reflexivity. Qed.

Lemma memory_clearCatch (key : string)
    (w : World (gmap string MemoryStore.CacheEntry)) :
  exists n : Z,
    clearCatch MemoryStore.service key w
    = (inr n, mkWorld (clock w) (delete key (redisState w)) (console w)).
Proof. eexists. reflexivity. Qed.

(** C7. In the in-memory store, with a positive access-token lifetime
    configured: writing a token with [setTokenToRedis] under
    [redisTokenKeyStr id userName] and then reading with [getRedisToken]
    returns that token; a second write under the same key replaces the
    first, and the next read returns the second token. For any store the
    write is [setCache] with the time to live [JWT_ACCESS_TOKEN_EXPIRES_IN],
    and here the remaining time to live right after the write is that
    value. *)
Theorem store_fetch_round_trip (cfg : ConfigService) (id : Z)
    (userName : string) (token1 token2 : Jwt.Token)
    (w : World (gmap string MemoryStore.CacheEntry)) :
  0 < JWT_ACCESS_TOKEN_EXPIRES_IN cfg ->
  let key := redisTokenKeyStr id userName in
  let w1 := snd (setTokenToRedis cfg MemoryStore.service key token1 w) in
  let w2 := snd (setTokenToRedis cfg MemoryStore.service key token2 w1) in
  fst (setTokenToRedis cfg MemoryStore.service key token1 w) = inr tt /\
  fst (getRedisToken MemoryStore.service id userName w1)
  = inr (Some token1) /\
  fst (setTokenToRedis cfg MemoryStore.service key token2 w1) = inr tt /\
  fst (getRedisToken MemoryStore.service id userName w2)
  = inr (Some token2) /\
  fst (getTokenTTL MemoryStore.service key w1)
  = inr (JWT_ACCESS_TOKEN_EXPIRES_IN cfg) /\
  (forall (S : Type) (redis : RedisService S) (k : string) (t : Jwt.Token),
     setTokenToRedis cfg redis k t
     = setCache redis k t (JWT_ACCESS_TOKEN_EXPIRES_IN cfg)).
Proof.
  intros Httl key w1 w2. subst w1 w2.
  unfold setTokenToRedis, getRedisToken, getTokenTTL. fold key.
  rewrite !memory_setCache, !memory_getCache. cbn [fst snd clock redisState].
  assert (Hlive : (clock w <? clock w + JWT_ACCESS_TOKEN_EXPIRES_IN cfg * 1000)%Z
                   = true) by (apply Z.ltb_lt; lia).
  split; [reflexivity |].
  split.
  { rewrite lookup_insert_eq. unfold MemoryStore.live.
    cbn [MemoryStore.expiresAt MemoryStore.value]. now rewrite Hlive. }
  split; [reflexivity |].
  split.
  { rewrite lookup_insert_eq. unfold MemoryStore.live.
    cbn [MemoryStore.expiresAt MemoryStore.value]. now rewrite Hlive. }
  split; [| reflexivity].
  cbn [getTTL MemoryStore.service]. unfold MemoryStore.getTTL,
    MemoryStore.withStore. cbn [fst snd clock redisState].
  rewrite lookup_insert_eq. unfold MemoryStore.live.
  cbn [MemoryStore.expiresAt]. rewrite Hlive. do 2 f_equal.
  replace (clock w + JWT_ACCESS_TOKEN_EXPIRES_IN cfg * 1000 - clock w)
    with (JWT_ACCESS_TOKEN_EXPIRES_IN cfg * 1000) by lia.
  apply Z.div_mul. lia.
Qed.


Lemma store_fetch_round_trip_witness :
  let key := redisTokenKeyStr 7 "peng" in
  let w1 := snd (setTokenToRedis Sample.config MemoryStore.service key
                   Sample.token1 Sample.world) in
  let w2 := snd (setTokenToRedis Sample.config MemoryStore.service key
                   Sample.token2 w1) in
  0 < JWT_ACCESS_TOKEN_EXPIRES_IN Sample.config /\
  fst (getRedisToken MemoryStore.service 7 "peng" w1)
  = inr (Some Sample.token1) /\
  fst (getRedisToken MemoryStore.service 7 "peng" w2)
  = inr (Some Sample.token2) /\
  fst (getTokenTTL MemoryStore.service key w1) = inr 3600.
Proof.
  assert (Httl : 0 < JWT_ACCESS_TOKEN_EXPIRES_IN Sample.config)
    by reflexivity.
  destruct (store_fetch_round_trip Sample.config 7 "peng" Sample.token1
              Sample.token2 Sample.world Httl)
    as (_ & Hfirst & _ & Hsecond & Hremaining & _).
  cbv zeta. split; [exact Httl |].
  split; [exact Hfirst |]. split; [exact Hsecond | exact Hremaining].
Defined.

(** ** Revocation *)

(** The outcome of [verifyAccessToken] depends on the token and the clock
    only: not on the cache store, nor on the console. *)
Lemma verifyAccessToken_ignores_store {S1 S2} (jwt : Jwt.JwtService)
    (cfg : ConfigService) (token : Jwt.Token) (w1 : World S1)
    (w2 : World S2) :
  clock w1 = clock w2 ->
  fst (verifyAccessToken jwt cfg token w1)
  = fst (verifyAccessToken jwt cfg token w2).
Proof.
  intros Hclock.
  unfold verifyAccessToken, tryCatch, Jwt.verifyAsync, bind, dateNow,
    liftResult, throw.
  rewrite Hclock. now destruct (Jwt.verify _ _ _).
Qed.

(** C6. In the in-memory store, with a non-empty access-token secret
    configured: [clearUserToken] returns without error and removes the
    entry of the user, so that [getRedisToken] for the same user returns
    nothing in any world holding the store it left; and an access token
    issued for that user, at any instant and in any world, still verifies
    there with [verifyAccessToken] before its own expiry, with the payload
    it was issued with. *)
Theorem revoke_keeps_token_valid (cfg : ConfigService) (data : UserLogoutDto)
    (w0 w : World (gmap string MemoryStore.CacheEntry)) :
  JWT_ACCESS_TOKEN_SECRET cfg <> "" ->
  exists (token : Jwt.Token) (payload : Jwt.JwtPayload),
    generateAccessToken (Jwt.register cfg) (id data) (userName data) w0
    = (inr token, w0) /\
    Jwt.sub payload = id data /\
    Jwt.userName payload = Some (userName data) /\
    fst (clearUserToken MemoryStore.service data w) = inr tt /\
    forall w' : World (gmap string MemoryStore.CacheEntry),
      redisState w'
      = redisState (snd (clearUserToken MemoryStore.service data w)) ->
      fst (getRedisToken MemoryStore.service (id data) (userName data) w')
      = inr None /\
      (Jwt.clockTimestamp (clock w')
       < Jwt.clockTimestamp (clock w0) + JWT_ACCESS_TOKEN_EXPIRES_IN cfg ->
       verifyAccessToken (Jwt.register cfg) cfg token w' = (inr payload, w')).
Proof.
  intros Hsecret.
  destruct (access_token_issue_verify cfg (id data) (userName data) w0 Hsecret)
    as (token & payload & Hgen & Hsub & Hname & Hverify).
  exists token, payload.
  split; [exact Hgen |]. split; [exact Hsub |]. split; [exact Hname |].
  destruct (memory_clearCatch (redisTokenKeyStr (id data) (userName data)) w)
    as [n Hn].
  destruct (clearUserToken_returns MemoryStore.service data w n _ Hn)
    as [line Hclear].
  rewrite Hclear. cbn [fst snd redisState].
  split; [reflexivity |].
  intros w' Hstore. split.
  - unfold getRedisToken. rewrite memory_getCache. cbn [fst].
    rewrite Hstore. now rewrite lookup_delete_eq.
  - intros Hbefore. now apply Hverify.
Qed.

(** Log in, log out: the cached token is gone, the token itself still
    verifies a minute later. *)
Lemma revoke_keeps_token_valid_witness :
  let logged :=
    snd (refreshAccessToken Sample.jwtService Sample.config
           MemoryStore.service 7 "peng" Sample.world) in
  let revoked := snd (clearUserToken MemoryStore.service Sample.user logged) in
  exists (token : Jwt.Token) (payload : Jwt.JwtPayload),
    generateAccessToken Sample.jwtService 7 "peng" Sample.world
    = (inr token, Sample.world) /\
    fst (getRedisToken MemoryStore.service 7 "peng" logged)
    = inr (Some token) /\
    fst (clearUserToken MemoryStore.service Sample.user logged) = inr tt /\
    fst (getRedisToken MemoryStore.service 7 "peng" revoked) = inr None /\
    fst (verifyAccessToken Sample.jwtService Sample.config token
           (Sample.later 60000 revoked)) = inr payload /\
    Jwt.sub payload = 7 /\ Jwt.userName payload = Some "peng".
Proof.
  intros logged revoked.
  destruct (revoke_keeps_token_valid Sample.config Sample.user Sample.world
              logged)
    as (token & payload & Hgen & Hsub & Hname & Hclear & Hafter);
    [discriminate |].
  exists token, payload.
  split; [exact Hgen |].
  split.
  { assert (Htoken : token = Sample.token1).
    { change (generateAccessToken Sample.jwtService 7 "peng" Sample.world
              = (inr token, Sample.world)) in Hgen.
      vm_compute in Hgen. now injection Hgen as <-. }
    rewrite Htoken. vm_compute. reflexivity. }
  split; [exact Hclear |].
  destruct (Hafter (Sample.later 60000 revoked) eq_refl) as [Habsent Hverify].
  split; [exact (proj1 (Hafter revoked eq_refl)) |].
  split; [| split; [exact Hsub | exact Hname]].
  change Sample.jwtService with (Jwt.register Sample.config).
  rewrite Hverify; [reflexivity |]. vm_compute. reflexivity.
Defined.


(** * Further properties *)

(** ** Verification under the secret named in the call *)

(** A token signed under [key] is rejected as expired from the second of
    its expiry on. *)
Lemma verify_expired (now : Z) (p : Jwt.JwtPayload) (key : string) (e : Z) :
  key <> "" -> Jwt.exp p = Some e -> e <= Jwt.clockTimestamp now ->
  Jwt.verify now (Jwt.Jws p (Jwt.HS256 key p)) (Some key)
  = inl (TokenExpiredError (e * 1000)).
Proof.
  intros Hk He Hlate. unfold Jwt.verify.
  rewrite truthyString_Some by assumption.
  rewrite bool_decide_eq_true_2 by reflexivity. rewrite He.
  destruct (Z.geb_spec (Jwt.clockTimestamp now) e); [reflexivity | lia].
Qed.

(** Whatever the module was registered with, [verifyAccessToken] checks
    under the configured access-token secret when that is non-empty. *)
Lemma verifyAccessToken_any_module {S} (jwt : Jwt.JwtService)
    (cfg : ConfigService) (token : Jwt.Token) (w : World S) :
  JWT_ACCESS_TOKEN_SECRET cfg <> "" ->
  verifyAccessToken jwt cfg token w
  = (match Jwt.verify (clock w) token (Some (JWT_ACCESS_TOKEN_SECRET cfg)) with
     | inr p => inr p
     | inl e => inl (UnauthorizedException UNAUTHORIZED_ACCESS_TOKEN (Some e))
     end, w).
Proof.
  intros H. unfold verifyAccessToken, tryCatch, Jwt.verifyAsync, bind,
    dateNow, liftResult, throw.
  cbn [Jwt.verify_secret]. rewrite orElse_Some by assumption.
  now destruct (Jwt.verify _ _ _).
Qed.

Lemma verifyRefresToken_any_module {S} (jwt : Jwt.JwtService)
    (cfg : ConfigService) (token : Jwt.Token) (w : World S) :
  JWT_REFRESH_TOKEN_SECRET cfg <> "" ->
  verifyRefresToken jwt cfg token w
  = (match Jwt.verify (clock w) token (Some (JWT_REFRESH_TOKEN_SECRET cfg)) with
     | inr p => inr p
     | inl e => inl (UnauthorizedException UNAUTHORIZED_REFRESH_TOKEN (Some e))
     end, w).
Proof.
  intros H. unfold verifyRefresToken, tryCatch, Jwt.verifyAsync, bind,
    dateNow, liftResult, throw.
  cbn [Jwt.verify_secret]. rewrite orElse_Some by assumption.
  now destruct (Jwt.verify _ _ _).
Qed.

Lemma generateRefreshToken_any_module {S} (jwt : Jwt.JwtService)
    (cfg : ConfigService) (id : Z) (w : World S) :
  JWT_REFRESH_TOKEN_SECRET cfg <> "" ->
  generateRefreshToken jwt cfg id w
  = (inr (let p := Jwt.stamp (clock w) (Jwt.mkClaims id None)
                     (Some (JWT_REFRESH_TOKEN_EXPIRES_IN cfg)) in
          Jwt.Jws p (Jwt.HS256 (JWT_REFRESH_TOKEN_SECRET cfg) p)), w).
Proof.
  intros H. unfold generateRefreshToken, Jwt.signAsync, bind, dateNow,
    liftResult.
  cbn [Jwt.sign_secret Jwt.sign_expiresIn].
  rewrite orElse_Some by assumption. now rewrite sign_ok.
Qed.

(** X1. With a non-empty refresh-token secret configured, and whatever the
    JWT module was registered with: [generateRefreshToken id] returns a
    token whose payload carries [sub = id] and no user name, signed under
    the refresh-token secret, expiring [JWT_REFRESH_TOKEN_EXPIRES_IN]
    seconds after its issue. [verifyRefresToken] returns that payload at
    every instant before the expiry, and from the second of expiry on it
    fails with [UNAUTHORIZED_REFRESH_TOKEN] around a [TokenExpiredError]. *)
Theorem refresh_token_round_trip {S} (jwt : Jwt.JwtService)
    (cfg : ConfigService) (id : Z) (w : World S) :
  JWT_REFRESH_TOKEN_SECRET cfg <> "" ->
  exists (token : Jwt.Token) (payload : Jwt.JwtPayload) (expiry : Z),
    generateRefreshToken jwt cfg id w = (inr token, w) /\
    token = Jwt.Jws payload (Jwt.HS256 (JWT_REFRESH_TOKEN_SECRET cfg) payload) /\
    Jwt.sub payload = id /\
    Jwt.userName payload = None /\
    expiry = Jwt.clockTimestamp (clock w) + JWT_REFRESH_TOKEN_EXPIRES_IN cfg /\
    Jwt.exp payload = Some expiry /\
    forall w' : World S,
      (Jwt.clockTimestamp (clock w') < expiry ->
       verifyRefresToken jwt cfg token w' = (inr payload, w')) /\
      (expiry <= Jwt.clockTimestamp (clock w') ->
       verifyRefresToken jwt cfg token w'
       = (inl (UnauthorizedException UNAUTHORIZED_REFRESH_TOKEN
                 (Some (TokenExpiredError (expiry * 1000)))), w')).
Proof.
  intros Hsecret.
  set (p := Jwt.stamp (clock w) (Jwt.mkClaims id None)
              (Some (JWT_REFRESH_TOKEN_EXPIRES_IN cfg))).
  exists (Jwt.Jws p (Jwt.HS256 (JWT_REFRESH_TOKEN_SECRET cfg) p)), p,
    (Jwt.clockTimestamp (clock w) + JWT_REFRESH_TOKEN_EXPIRES_IN cfg).
  split; [now apply generateRefreshToken_any_module |].
  do 5 (split; [reflexivity |]).
  intros w'. rewrite verifyRefresToken_any_module by assumption. split.
  - intros Hbefore.
    rewrite verify_same_secret; [reflexivity | assumption | exact Hbefore].
  - intros Hlate.
    erewrite verify_expired; [reflexivity | assumption | reflexivity |].
    exact Hlate.
Qed.

Lemma refresh_token_round_trip_witness :
  exists (token : Jwt.Token) (payload : Jwt.JwtPayload),
    generateRefreshToken Fixture.otherModule Sample.config 7 Sample.world
    = (inr token, Sample.world) /\
    Jwt.sub payload = 7 /\ Jwt.userName payload = None /\
    fst (verifyRefresToken Fixture.otherModule Sample.config token
           (Sample.later 604799000 Sample.world)) = inr payload /\
    fst (verifyRefresToken Fixture.otherModule Sample.config token
           (Sample.later 604800000 Sample.world))
    = inl (UnauthorizedException UNAUTHORIZED_REFRESH_TOKEN
             (Some (TokenExpiredError 1700604800000))).
Proof.
  destruct (refresh_token_round_trip Fixture.otherModule Sample.config 7
              Sample.world)
    as (token & payload & expiry & Hgen & _ & Hsub & Hname & Hexp & _ & Hver);
    [discriminate |].
  exists token, payload.
  split; [exact Hgen |]. split; [exact Hsub |]. split; [exact Hname |].
  subst expiry. split.
  - destruct (Hver (Sample.later 604799000 Sample.world)) as [Hok _].
    rewrite Hok; reflexivity.
  - destruct (Hver (Sample.later 604800000 Sample.world)) as [_ Hlate].
    rewrite Hlate; [reflexivity | discriminate].
Defined.

(** X2. With a non-empty access-token secret configured, an access token
    issued by [generateAccessToken] is accepted by [verifyAccessToken]
    exactly at the instants whose second is below
    [iat + JWT_ACCESS_TOKEN_EXPIRES_IN]: from the second of expiry on,
    with no grace window, it fails with [UNAUTHORIZED_ACCESS_TOKEN] around
    a [TokenExpiredError] dated at the expiry. *)
Theorem access_token_expiry {S} (cfg : ConfigService) (id : Z)
    (userName : string) (w w' : World S) :
  JWT_ACCESS_TOKEN_SECRET cfg <> "" ->
  exists (token : Jwt.Token) (expiry : Z),
    generateAccessToken (Jwt.register cfg) id userName w = (inr token, w) /\
    expiry = Jwt.clockTimestamp (clock w) + JWT_ACCESS_TOKEN_EXPIRES_IN cfg /\
    ((exists payload,
        verifyAccessToken (Jwt.register cfg) cfg token w' = (inr payload, w'))
     <-> Jwt.clockTimestamp (clock w') < expiry) /\
    (expiry <= Jwt.clockTimestamp (clock w') ->
     verifyAccessToken (Jwt.register cfg) cfg token w'
     = (inl (UnauthorizedException UNAUTHORIZED_ACCESS_TOKEN
               (Some (TokenExpiredError (expiry * 1000)))), w')).
Proof.
  intros Hsecret.
  set (p := Jwt.stamp (clock w) (Jwt.mkClaims id (Some userName))
              (Some (JWT_ACCESS_TOKEN_EXPIRES_IN cfg))).
  exists (Jwt.Jws p (Jwt.HS256 (JWT_ACCESS_TOKEN_SECRET cfg) p)),
    (Jwt.clockTimestamp (clock w) + JWT_ACCESS_TOKEN_EXPIRES_IN cfg).
  split; [now apply generateAccessToken_run |].
  split; [reflexivity |].
  rewrite verifyAccessToken_any_module by assumption.
  assert (Hlate :
    Jwt.clockTimestamp (clock w) + JWT_ACCESS_TOKEN_EXPIRES_IN cfg
    <= Jwt.clockTimestamp (clock w') ->
    Jwt.verify (clock w')
      (Jwt.Jws p (Jwt.HS256 (JWT_ACCESS_TOKEN_SECRET cfg) p))
      (Some (JWT_ACCESS_TOKEN_SECRET cfg))
    = inl (TokenExpiredError
             ((Jwt.clockTimestamp (clock w)
               + JWT_ACCESS_TOKEN_EXPIRES_IN cfg) * 1000))).
  { intros H. now apply verify_expired. }
  split; [split |].
  - intros [payload Hok].
    destruct (Z.lt_ge_cases (Jwt.clockTimestamp (clock w'))
                (Jwt.clockTimestamp (clock w)
                 + JWT_ACCESS_TOKEN_EXPIRES_IN cfg)) as [Hlt | Hge];
      [exact Hlt |].
    rewrite (Hlate Hge) in Hok. discriminate Hok.
  - intros Hbefore. exists p.
    rewrite verify_same_secret; [reflexivity | assumption | exact Hbefore].
  - intros Hge. now rewrite (Hlate Hge).
Qed.

Lemma access_token_expiry_witness :
  exists token : Jwt.Token,
    generateAccessToken Sample.jwtService 7 "peng" Sample.world
    = (inr token, Sample.world) /\
    fst (verifyAccessToken Sample.jwtService Sample.config token
           (Sample.later 3600000 Sample.world))
    = inl (UnauthorizedException UNAUTHORIZED_ACCESS_TOKEN
             (Some (TokenExpiredError 1700003600000))).
Proof.
  destruct (access_token_expiry Sample.config 7 "peng" Sample.world
              (Sample.later 3600000 Sample.world))
    as (token & expiry & Hgen & Hexp & _ & Hlate); [discriminate |].
  exists token. split; [exact Hgen |].
  subst expiry. change Sample.jwtService with (Jwt.register Sample.config).
  rewrite Hlate; [reflexivity | discriminate].
Defined.

(** X3. With a non-empty access-token secret configured, and whatever the
    JWT module was registered with: [verifyAccessToken] returns a payload
    exactly for a well-formed token whose signature was made under the
    access-token secret over that very payload and which has not expired;
    every other token, in particular a malformed one and one whose payload
    differs from the signed one, fails with an [UnauthorizedException] of
    code [UNAUTHORIZED_ACCESS_TOKEN] that carries the underlying error. The
    world is left as it was. *)
Theorem verifyAccessToken_accepts_iff {S} (jwt : Jwt.JwtService)
    (cfg : ConfigService) (token : Jwt.Token) (w : World S) :
  JWT_ACCESS_TOKEN_SECRET cfg <> "" ->
  snd (verifyAccessToken jwt cfg token w) = w /\
  (forall payload,
     fst (verifyAccessToken jwt cfg token w) = inr payload <->
     token = Jwt.Jws payload
               (Jwt.HS256 (JWT_ACCESS_TOKEN_SECRET cfg) payload) /\
     match Jwt.exp payload with
     | Some e => Jwt.clockTimestamp (clock w) < e
     | None => True
     end) /\
  ((exists payload, fst (verifyAccessToken jwt cfg token w) = inr payload) \/
   (exists e,
      fst (verifyAccessToken jwt cfg token w)
      = inl (UnauthorizedException UNAUTHORIZED_ACCESS_TOKEN (Some e)))).
Proof.
  intros Hsecret. rewrite verifyAccessToken_any_module by assumption.
  cbn [fst snd]. split; [reflexivity |]. split.
  - intros payload. split.
    + destruct token as [p sig | raw]; [| discriminate].
      unfold Jwt.verify. rewrite truthyString_Some by assumption.
      destruct (bool_decide_reflect
                  (sig = Jwt.HS256 (JWT_ACCESS_TOKEN_SECRET cfg) p))
        as [-> | Hsig]; [| discriminate].
      destruct (Jwt.exp p) as [e|] eqn:He.
      * destruct (Z.geb_spec (Jwt.clockTimestamp (clock w)) e);
          [discriminate |].
        intros [= <-]. rewrite He. split; [reflexivity | lia].
      * intros [= <-]. rewrite He. now split.
    + intros [-> Hexp]. now rewrite verify_same_secret.
  - destruct (Jwt.verify _ _ _) as [e | p]; [right | left]; eauto.
Qed.

Lemma verifyAccessToken_accepts_iff_witness :
  fst (verifyAccessToken Fixture.bareModule Sample.config Sample.token1
         (Sample.later 1000 Sample.world))
  = inr (Jwt.stamp 1700000000000 (Jwt.mkClaims 7 (Some "peng")) (Some 3600)).
Proof.
  destruct (verifyAccessToken_accepts_iff Fixture.bareModule Sample.config
              Sample.token1 (Sample.later 1000 Sample.world))
    as (_ & Hiff & _); [discriminate |].
  apply Hiff. split; [reflexivity | reflexivity].
Defined.

(** A token whose payload was changed after signing, and a string that is
    no token, are turned away. *)
Example verifyAccessToken_tampered :
  fst (verifyAccessToken Sample.jwtService Sample.config
         (Jwt.Jws (Jwt.stamp 1700000000000 (Jwt.mkClaims 1 (Some "root"))
                     (Some 3600))
                  (Jwt.HS256 "access-secret"
                     (Jwt.stamp 1700000000000 (Jwt.mkClaims 7 (Some "peng"))
                        (Some 3600))))
         Sample.world)
  = inl (UnauthorizedException UNAUTHORIZED_ACCESS_TOKEN
           (Some (JsonWebTokenError "invalid signature"))) /\
  fst (verifyAccessToken Sample.jwtService Sample.config
         (Jwt.Malformed "not-a-token") Sample.world)
  = inl (UnauthorizedException UNAUTHORIZED_ACCESS_TOKEN
           (Some (JsonWebTokenError "jwt malformed"))).
Proof. split; vm_compute; reflexivity. Qed.

(** X4. [generateAccessToken] signs with the secret the JWT module was
    registered with, [verifyAccessToken] checks under the configured
    access-token secret. When the two are non-empty and differ, every
    access token the service issues is rejected by its own
    [verifyAccessToken], at any instant, as having an invalid signature. *)
Theorem access_token_needs_matching_registration {S} (jwt : Jwt.JwtService)
    (cfg : ConfigService) (moduleSecret : string) (id : Z)
    (userName : string) (w w' : World S) :
  Jwt.module_secret (Jwt.options jwt) = Some moduleSecret ->
  moduleSecret <> "" ->
  JWT_ACCESS_TOKEN_SECRET cfg <> "" ->
  moduleSecret <> JWT_ACCESS_TOKEN_SECRET cfg ->
  exists token : Jwt.Token,
    generateAccessToken jwt id userName w = (inr token, w) /\
    verifyAccessToken jwt cfg token w'
    = (inl (UnauthorizedException UNAUTHORIZED_ACCESS_TOKEN
              (Some (JsonWebTokenError "invalid signature"))), w').
Proof.
  intros Hmodule Hm Ha Hne.
  unfold generateAccessToken, Jwt.signAsync, bind, dateNow, liftResult, ret.
  change (orElse None ?b) with b. rewrite Hmodule.
  rewrite sign_ok by assumption.
  eexists. split; [reflexivity |].
  rewrite verifyAccessToken_any_module by assumption.
  now rewrite verify_other_secret.
Qed.

Lemma access_token_needs_matching_registration_witness :
  exists token : Jwt.Token,
    generateAccessToken Fixture.otherModule 7 "peng" Sample.world
    = (inr token, Sample.world) /\
    fst (verifyAccessToken Fixture.otherModule Sample.config token
           Sample.world)
    = inl (UnauthorizedException UNAUTHORIZED_ACCESS_TOKEN
             (Some (JsonWebTokenError "invalid signature"))).
Proof.
  destruct (access_token_needs_matching_registration Fixture.otherModule
              Sample.config "module-secret" 7 "peng" Sample.world
              Sample.world)
    as (token & Hgen & Hrej);
    [reflexivity | discriminate | discriminate | discriminate |].
  exists token. split; [exact Hgen | exact (f_equal fst Hrej)].
Defined.

(** ** Refreshing when no token can be issued *)

(** X5. For any cache store: when [generateAccessToken] fails with an
    error [e], [refreshAccessToken] fails with an
    [InternalServerErrorException] of code [INTERNALSERVERERROR_REDIS]
    around [e], although the cache was never reached: the world, store
    included, is left exactly as it was. *)
Theorem refreshAccessToken_issue_failure {S} (jwt : Jwt.JwtService)
    (cfg : ConfigService) (redis : RedisService S) (id : Z)
    (userName : string) (w : World S) (e : Thrown) :
  fst (generateAccessToken jwt id userName w) = inl e ->
  refreshAccessToken jwt cfg redis id userName w
  = (inl (InternalServerErrorException INTERNALSERVERERROR_REDIS e), w).
Proof.
  intros Hfail. rewrite refreshAccessToken_run.
  pose proof (generateAccessToken_pure jwt id userName w) as Hpure.
  destruct (generateAccessToken jwt id userName w) as [[e0|token] w1];
    cbn [fst snd] in Hfail, Hpure; [| discriminate Hfail].
  injection Hfail as ->. now subst w1.
Qed.

Lemma refreshAccessToken_issue_failure_witness :
  refreshAccessToken (Jwt.register Fixture.noSecret) Fixture.noSecret
    MemoryStore.service 7 "peng" Sample.world
  = (inl (InternalServerErrorException INTERNALSERVERERROR_REDIS
            (Error "secretOrPrivateKey must have a value")), Sample.world).
Proof.
  apply (refreshAccessToken_issue_failure (Jwt.register Fixture.noSecret)
           Fixture.noSecret MemoryStore.service 7 "peng" Sample.world).
  reflexivity.
Defined.

(** ** The CAPTCHA check: case and the zero expiry *)

Lemma lowerChar_idempotent (c : ascii) : lowerChar (lowerChar c) = lowerChar c.
Proof.
  destruct c as [[] [] [] [] [] [] [] []]; reflexivity.
Qed.

Lemma toLocaleLowerCase_idempotent (s : string) :
  toLocaleLowerCase (toLocaleLowerCase s) = toLocaleLowerCase s.
Proof.
  induction s as [|c s IH]; [reflexivity |].
  cbn [toLocaleLowerCase]. now rewrite lowerChar_idempotent, IH.
Qed.

Lemma toLocaleLowerCase_empty (s : string) :
  String.eqb (toLocaleLowerCase s) "" = String.eqb s "".
Proof. now destruct s. Qed.

(** X6. [verifyCaptcha] looks at the supplied answer and at the stored
    answer only up to letter case: lowercasing the supplied answer, or the
    answer stored in the session, before the call changes nothing in its
    outcome, whatever the session and the instant. *)
Theorem verifyCaptcha_case_insensitive {S} (answer stored : string)
    (ts : option Z) (session : option SessionInfo) (w : World S) :
  verifyCaptcha (toLocaleLowerCase answer) session w
  = verifyCaptcha answer session w /\
  verifyCaptcha answer
    (Some (mkSession (Some (toLocaleLowerCase stored)) ts)) w
  = verifyCaptcha answer (Some (mkSession (Some stored) ts)) w.
Proof.
  rewrite !verifyCaptcha_table. split.
  - now rewrite toLocaleLowerCase_idempotent.
  - cbn [sessionCaptcha sessionExpirationTimestamp captcha
         expirationTimestamp].
    now rewrite toLocaleLowerCase_empty, toLocaleLowerCase_idempotent.
Qed.

Example verifyCaptcha_upper_and_lower :
  fst (verifyCaptcha "ab3d" Sample.session Sample.world) = inr tt /\
  fst (verifyCaptcha "AB3D" Sample.session Sample.world) = inr tt /\
  fst (verifyCaptcha "Ab3D" (Some (mkSession (Some "AB3D")
                                     (Some 1700000060000))) Sample.world)
  = inr tt.
Proof. repeat split. Qed.

(** X7. An expiry of [0] counts as no expiry at all: with a non-empty
    stored answer, [verifyCaptcha] fails with
    [UNAUTHORIZED_CAPTCHA_EXPIRE] for every supplied answer, the right one
    included, and at every instant, those at or before the epoch
    included. *)
Theorem verifyCaptcha_zero_expiry {S} (answer stored : string)
    (w : World S) :
  stored <> "" ->
  verifyCaptcha answer (Some (mkSession (Some stored) (Some 0))) w
  = (inl (UnauthorizedException UNAUTHORIZED_CAPTCHA_EXPIRE None), w) /\
  verifyCaptcha answer (Some (mkSession (Some stored) (Some 0))) w
  = verifyCaptcha answer (Some (mkSession (Some stored) None)) w.
Proof.
  intros Hstored. rewrite !verifyCaptcha_table.
  cbn [sessionCaptcha sessionExpirationTimestamp captcha expirationTimestamp].
  destruct (String.eqb_spec stored ""); [contradiction |].
  now split.
Qed.

Lemma verifyCaptcha_zero_expiry_witness :
  fst (verifyCaptcha "aB3d" (Some (mkSession (Some "aB3d") (Some 0)))
         (mkWorld (-5) tt []))
  = inl (UnauthorizedException UNAUTHORIZED_CAPTCHA_EXPIRE None).
Proof.
  destruct (verifyCaptcha_zero_expiry "aB3d" "aB3d" (mkWorld (-5) tt []))
    as [Hexpired _]; [discriminate |].
  exact (f_equal fst Hexpired).
Defined.

(** ** The cache key on all integer ids *)

Lemma numberToString_nonempty (n : Z) : numberToString n <> "".
Proof.
  unfold numberToString. intros E.
  pose proof (NilEmpty.isi (Z.to_int n)) as Hisi. rewrite E in Hisi.
  cbn in Hisi. injection Hisi as Hint.
  pose proof (DecimalZ.of_to n) as Hn. rewrite <- Hint in Hn. cbn in Hn.
  subst n. discriminate E.
Qed.

(** The decimal text of a non-negative integer starts with a character
    that is not a hyphen. *)
Lemma numberToString_head (n : Z) :
  0 <= n ->
  exists c rest, numberToString n = String c rest /\ c <> "-"%char.
Proof.
  intros Hn. pose proof (numberToString_lacks_hyphen n Hn) as Hlacks.
  pose proof (numberToString_nonempty n) as Hne.
  destruct (numberToString n) as [|c rest]; [contradiction |].
  exists c, rest. split; [reflexivity | exact (proj1 Hlacks)].
Qed.

Lemma numberToString_negative (p : positive) :
  numberToString (Zneg p) = String "-" (numberToString (Zpos p)).
Proof. reflexivity. Qed.

(** A key built from a non-negative id never equals one built from a
    negative id. *)
Lemma key_sign_clash (n : Z) (p : positive) (x y : string) :
  0 <= n ->
  numberToString n ++ String "-" x
  <> numberToString (Zneg p) ++ String "-" y.
Proof.
  intros Hn E. destruct (numberToString_head n Hn) as (c & rest & Hc & Hhead).
  rewrite Hc, numberToString_negative in E.
  change (String c (rest ++ String "-" x)
          = String "-" (numberToString (Zpos p) ++ String "-" y)) in E.
  injection E as Hch _. contradiction.
Qed.

(** The text after the prefix determines the id and the user name. *)
Lemma key_text_injective (id1 id2 : Z) (n1 n2 : string) :
  numberToString id1 ++ String "-" n1 = numberToString id2 ++ String "-" n2 ->
  id1 = id2 /\ n1 = n2.
Proof.
  intros E.
  destruct (Z.neg_nonneg_cases id1) as [H1 | H1],
           (Z.neg_nonneg_cases id2) as [H2 | H2].
  - destruct id1 as [|p1|p1]; [lia | lia |].
    destruct id2 as [|p2|p2]; [lia | lia |].
    rewrite !numberToString_negative in E.
    change (String "-" (numberToString (Zpos p1) ++ String "-" n1)
            = String "-" (numberToString (Zpos p2) ++ String "-" n2)) in E.
    injection E as E.
    apply split_at_hyphen in E;
      [| apply numberToString_lacks_hyphen; lia
       | apply numberToString_lacks_hyphen; lia].
    destruct E as [Ep ->]. apply numberToString_inj in Ep.
    injection Ep as ->. now split.
  - destruct id1 as [|p1|p1]; [lia | lia |].
    symmetry in E. now apply key_sign_clash in E.
  - destruct id2 as [|p2|p2]; [lia | lia |].
    now apply key_sign_clash in E.
  - apply split_at_hyphen in E; auto using numberToString_lacks_hyphen.
    destruct E as [En ->]. split; [now apply numberToString_inj | reflexivity].
Qed.

Lemma key_of_other_user (id1 id2 : Z) (n1 n2 : string) :
  (id1, n1) <> (id2, n2) ->
  redisTokenKeyStr id1 n1 <> redisTokenKeyStr id2 n2.
Proof.
  intros Hne E. apply Hne.
  rewrite !redisTokenKeyStr_format_text in E. apply append_cancel_l in E.
  apply key_text_injective in E. destruct E as [-> ->]. reflexivity.
Qed.

(** X8. The cache key determines the pair it was built from on all
    integer ids, negative ones included: two pairs with the same key have
    the same id and the same user name, so that two different users never
    share a cache entry. *)
Theorem redisTokenKeyStr_injective_Z (id1 id2 : Z) (n1 n2 : string) :
  redisTokenKeyStr id1 n1 = redisTokenKeyStr id2 n2 ->
  id1 = id2 /\ n1 = n2.
Proof.
  rewrite !redisTokenKeyStr_format_text. intros E.
  apply append_cancel_l in E. now apply key_text_injective.
Qed.

Lemma redisTokenKeyStr_injective_Z_witness :
  redisTokenKeyStr (-3) "x-1" = redisTokenKeyStr (-3) "x-1" /\
  (-3 = -3 /\ "x-1" = "x-1").
Proof.
  split; [reflexivity |].
  apply (redisTokenKeyStr_injective_Z (-3) (-3) "x-1" "x-1"). reflexivity.
Defined.


(** ** Users side by side in the in-memory store *)

Lemma memory_getRedisToken (id : Z) (name : string)
    (w : World (gmap string MemoryStore.CacheEntry)) :
  fst (getRedisToken MemoryStore.service id name w)
  = inr (match redisState w !! redisTokenKeyStr id name with
         | Some e =>
             if MemoryStore.live (clock w) e
             then Some (MemoryStore.value e) else None
         | None => None
         end).
Proof. unfold getRedisToken. now rewrite memory_getCache. Qed.

(** X9. In the in-memory store standing for the cache service: writing a
    token for one user with [setTokenToRedis], or logging that user out
    with [clearUserToken], leaves what [getRedisToken] returns for any
    other user (another id or another user name) unchanged. *)
Theorem memory_store_user_isolation (cfg : ConfigService) (id1 id2 : Z)
    (n1 n2 : string) (token : Jwt.Token)
    (w : World (gmap string MemoryStore.CacheEntry)) :
  (id1, n1) <> (id2, n2) ->
  fst (getRedisToken MemoryStore.service id2 n2
         (snd (setTokenToRedis cfg MemoryStore.service
                 (redisTokenKeyStr id1 n1) token w)))
  = fst (getRedisToken MemoryStore.service id2 n2 w) /\
  fst (getRedisToken MemoryStore.service id2 n2
         (snd (clearUserToken MemoryStore.service
                 (mkUserLogoutDto id1 n1) w)))
  = fst (getRedisToken MemoryStore.service id2 n2 w).
Proof.
  intros Hother. apply key_of_other_user in Hother.
  rewrite !memory_getRedisToken. split.
  - unfold setTokenToRedis. rewrite memory_setCache.
    cbn [snd redisState clock].
    now rewrite lookup_insert_ne by exact Hother.
  - destruct (memory_clearCatch (redisTokenKeyStr id1 n1) w) as [n Hn].
    destruct (clearUserToken_returns MemoryStore.service
                (mkUserLogoutDto id1 n1) w n _ Hn) as [line Hclear].
    rewrite Hclear. cbn [snd redisState clock].
    now rewrite lookup_delete_ne by exact Hother.
Qed.

Lemma memory_store_user_isolation_witness :
  let w := snd (setTokenToRedis Sample.config MemoryStore.service
                  (redisTokenKeyStr 1 "2-x") Sample.token1 Sample.world) in
  fst (getRedisToken MemoryStore.service 1 "2-x"
         (snd (setTokenToRedis Sample.config MemoryStore.service
                 (redisTokenKeyStr 12 "x") Sample.token2 w)))
  = inr (Some Sample.token1) /\
  fst (getRedisToken MemoryStore.service 1 "2-x"
         (snd (clearUserToken MemoryStore.service
                 (mkUserLogoutDto 12 "x") w)))
  = inr (Some Sample.token1).
Proof.
  intros w.
  destruct (memory_store_user_isolation Sample.config 12 1 "x" "2-x"
              Sample.token2 w) as [Hset Hclear]; [discriminate |].
  split.
  - rewrite Hset. vm_compute. reflexivity.
  - rewrite Hclear. vm_compute. reflexivity.
Defined.

(** X10. In the in-memory store standing for the cache service, with a
    non-empty access-token secret and a positive access-token lifetime
    configured: [refreshAccessToken] succeeds whatever was cached before,
    and right after it [getRedisToken] for the same user returns exactly
    the token that was handed back, which [verifyAccessToken] accepts. *)
Theorem refresh_then_fetch (cfg : ConfigService) (id : Z)
    (userName : string) (w : World (gmap string MemoryStore.CacheEntry)) :
  JWT_ACCESS_TOKEN_SECRET cfg <> "" ->
  0 < JWT_ACCESS_TOKEN_EXPIRES_IN cfg ->
  exists (token : Jwt.Token) (payload : Jwt.JwtPayload)
         (w' : World (gmap string MemoryStore.CacheEntry)),
    refreshAccessToken (Jwt.register cfg) cfg MemoryStore.service
      id userName w = (inr token, w') /\
    clock w' = clock w /\
    fst (getRedisToken MemoryStore.service id userName w')
    = inr (Some token) /\
    fst (verifyAccessToken (Jwt.register cfg) cfg token w') = inr payload /\
    Jwt.sub payload = id /\ Jwt.userName payload = Some userName.
Proof.
  intros Hsecret Httl.
  destruct (access_token_issue_verify cfg id userName w Hsecret)
    as (token & payload & Hgen & Hsub & Hname & Hverify).
  exists token, payload. eexists.
  rewrite refreshAccessToken_run, Hgen, memory_setCache.
  split; [reflexivity |]. cbn [clock].
  split; [reflexivity |].
  split.
  - rewrite memory_getRedisToken. cbn [redisState clock].
    rewrite lookup_insert_eq. unfold MemoryStore.live.
    cbn [MemoryStore.expiresAt MemoryStore.value].
    destruct (Z.ltb_spec (clock w)
                (clock w + JWT_ACCESS_TOKEN_EXPIRES_IN cfg * 1000));
      [reflexivity | lia].
  - split; [| split; [exact Hsub | exact Hname]].
    rewrite Hverify; [reflexivity |]. cbn [clock]. lia.
Qed.

Lemma refresh_then_fetch_witness :
  exists (token : Jwt.Token)
         (w' : World (gmap string MemoryStore.CacheEntry)),
    refreshAccessToken Sample.jwtService Sample.config MemoryStore.service
      7 "peng"
      (snd (setTokenToRedis Sample.config MemoryStore.service
              (redisTokenKeyStr 7 "peng") (Jwt.Malformed "stale")
              Sample.world))
    = (inr token, w') /\
    fst (getRedisToken MemoryStore.service 7 "peng" w') = inr (Some token).
Proof.
  destruct (refresh_then_fetch Sample.config 7 "peng"
              (snd (setTokenToRedis Sample.config MemoryStore.service
                      (redisTokenKeyStr 7 "peng") (Jwt.Malformed "stale")
                      Sample.world)))
    as (token & payload & w' & Hrefresh & _ & Hfetch & _);
    [discriminate | reflexivity |].
  exists token, w'. split; [exact Hrefresh | exact Hfetch].
Defined.

(** ** Parsing without the HTTP wrapping *)

(** The library rejects a token with one of its own two errors. *)
Lemma verify_error_kind (now : Z) (token : Jwt.Token)
    (secret : option string) (e : Thrown) :
  Jwt.verify now token secret = inl e ->
  (exists m, e = JsonWebTokenError m) \/ (exists t, e = TokenExpiredError t).
Proof.
  unfold Jwt.verify.
  destruct token as [p sig | raw]; [| intros [= <-]; left; eauto].
  destruct secret as [key|]; [| intros [= <-]; left; eauto].
  destruct (truthyString (Some key)); [| intros [= <-]; left; eauto].
  destruct (bool_decide (sig = Jwt.HS256 key p));
    [| intros [= <-]; left; eauto].
  destruct (Jwt.exp p) as [t|]; [| discriminate].
  destruct (Jwt.clockTimestamp now >=? t)%Z; [| discriminate].
  intros [= <-]. right. eauto.
Qed.

(** X11. [parseToken] and [verifyAccessToken] accept the same tokens, with
    the same payload, and neither changes the world. They differ in how
    they fail: [parseToken] lets the error of the JWT library through as it
    is (a [JsonWebTokenError] or a [TokenExpiredError], never an HTTP
    exception), where [verifyAccessToken] throws an
    [UnauthorizedException] of code [UNAUTHORIZED_ACCESS_TOKEN] around that
    same error. *)
Theorem parseToken_unwrapped {S} (jwt : Jwt.JwtService)
    (cfg : ConfigService) (token : Jwt.Token) (w : World S) :
  snd (parseToken jwt cfg token w) = w /\
  snd (verifyAccessToken jwt cfg token w) = w /\
  (forall payload,
     fst (parseToken jwt cfg token w) = inr payload <->
     fst (verifyAccessToken jwt cfg token w) = inr payload) /\
  (forall e,
     fst (parseToken jwt cfg token w) = inl e ->
     ((exists m, e = JsonWebTokenError m) \/
      (exists t, e = TokenExpiredError t)) /\
     fst (verifyAccessToken jwt cfg token w)
     = inl (UnauthorizedException UNAUTHORIZED_ACCESS_TOKEN (Some e))).
Proof.
  unfold verifyAccessToken, parseToken, tryCatch, Jwt.verifyAsync, bind,
    dateNow, liftResult, throw.
  destruct (Jwt.verify (clock w) token _) as [e0 | p] eqn:Hv; cbn [fst snd].
  - split; [reflexivity |]. split; [reflexivity |]. split.
    + intros payload. split; discriminate.
    + intros e [= <-]. split; [| reflexivity].
      now apply verify_error_kind in Hv.
  - split; [reflexivity |]. split; [reflexivity |]. split.
    + intros payload. reflexivity.
    + intros e. discriminate.
Qed.

Lemma parseToken_unwrapped_witness :
  fst (parseToken Sample.jwtService Sample.config Sample.token1
         (Sample.later 3600000 Sample.world))
  = inl (TokenExpiredError 1700003600000) /\
  fst (verifyAccessToken Sample.jwtService Sample.config Sample.token1
         (Sample.later 3600000 Sample.world))
  = inl (UnauthorizedException UNAUTHORIZED_ACCESS_TOKEN
           (Some (TokenExpiredError 1700003600000))).
Proof.
  destruct (parseToken_unwrapped Sample.jwtService Sample.config
              Sample.token1 (Sample.later 3600000 Sample.world))
    as (_ & _ & _ & Hfail).
  split; [reflexivity |].
  apply (Hfail (TokenExpiredError 1700003600000)). reflexivity.
Defined.
